(** * Member service and groups controller: a shallow embedding

    The development follows [services/memberService.js] (member signup,
    update, listing and verification on top of the Sequelize models
    [Member] and [Address]) and the groups controller exercised by
    [groupsControllerSpec] (create, update, delete and listing of the
    groups of a branch, with one event published per mutation).  It also
    covers the PayPal notification handler and the state updates of the
    admin dashboard component.

    JavaScript objects are association lists from property names to
    values, kept in insertion order.  Promise chains are functions from a
    world to a settled outcome and the next world: the world carries the
    tables, the log, the store calls issued so far and the outcome the
    store gives to each call. *)

From Stdlib Require Import String List Bool Arith Lia.
Import ListNotations.
Open Scope string_scope.
Set Warnings "-register-all".

(** ** JavaScript values and objects *)

Module JS.

(** The values that travel through the service.  [VDate raw fmt] is the
    date [moment(raw, fmt).toDate()]; [VInst d] is a Sequelize model
    instance whose [dataValues] property is the plain object [d]. *)
Inductive value : Type :=
| VUndefined
| VNull
| VBool (b : bool)
| VNum (n : nat)
| VStr (s : string)
| VDate (raw : value) (fmt : string)
| VArr (items : list value)
| VObj (fields : list (string * value))
| VInst (dataValues : list (string * value)).

Definition obj : Type := list (string * value).

(** [!v] is [negb (truthy v)]. *)
Definition truthy (v : value) : bool :=
  match v with
  | VUndefined | VNull => false
  | VBool b => b
  | VNum n => negb (Nat.eqb n 0)
  | VStr s => negb (String.eqb s "")
  | VDate _ _ | VArr _ | VObj _ | VInst _ => true
  end.

(** Structural comparison, used by the tables to compare a column with
    the value of a [where] clause. *)
Fixpoint value_eqb (a b : value) {struct a} : bool :=
  let fix items_eqb (l1 l2 : list value) {struct l1} : bool :=
    match l1, l2 with
    | [], [] => true
    | x :: t1, y :: t2 => value_eqb x y && items_eqb t1 t2
    | _, _ => false
    end in
  let fix fields_eqb (l1 l2 : list (string * value)) {struct l1} : bool :=
    match l1, l2 with
    | [], [] => true
    | (k1, x) :: t1, (k2, y) :: t2 =>
        String.eqb k1 k2 && value_eqb x y && fields_eqb t1 t2
    | _, _ => false
    end in
  match a, b with
  | VUndefined, VUndefined => true
  | VNull, VNull => true
  | VBool x, VBool y => Bool.eqb x y
  | VNum x, VNum y => Nat.eqb x y
  | VStr x, VStr y => String.eqb x y
  | VDate x f, VDate y g => value_eqb x y && String.eqb f g
  | VArr x, VArr y => items_eqb x y
  | VObj x, VObj y => fields_eqb x y
  | VInst x, VInst y => fields_eqb x y
  | _, _ => false
  end.

(** [o[k]]: the value of property [k], [undefined] when absent. *)
Fixpoint get (k : string) (o : obj) : value :=
  match o with
  | [] => VUndefined
  | (k', v) :: rest => if String.eqb k k' then v else get k rest
  end.

Fixpoint has_key (k : string) (o : obj) : bool :=
  match o with
  | [] => false
  | (k', _) :: rest => String.eqb k k' || has_key k rest
  end.

Definition keys (o : obj) : list string := map fst o.

(** [o[k] = v]: an existing property keeps its place, a new one goes last. *)
Fixpoint set (k : string) (v : value) (o : obj) : obj :=
  match o with
  | [] => [(k, v)]
  | (k', v') :: rest =>
      if String.eqb k k' then (k', v) :: rest else (k', v') :: set k v rest
  end.

(** [Object.assign(target, source)]. *)
Definition assign (target source : obj) : obj :=
  fold_left (fun acc kv => set (fst kv) (snd kv) acc) source target.

(** What a chain can be rejected with: a bare string ([Q.reject('...')]),
    an [Error] ([throw new Error('...')]), or the [TypeError] of reading a
    property of [null] or [undefined]. *)
Inductive reason : Type :=
| RStr (s : string)
| RError (message : string)
| RTypeError (message : string).

Inductive outcome (A : Type) : Type :=
| Resolved (a : A)
| Rejected (r : reason).

Arguments Resolved {A} a.
Arguments Rejected {A} r.

(** [v[k]] on an arbitrary value: a [TypeError] on [null] and
    [undefined]; an instance exposes its plain attributes under
    [dataValues] and each of them through a getter; values without the
    property give [undefined]. *)
Definition prop (k : string) (v : value) : outcome value :=
  match v with
  | VNull => Rejected (RTypeError ("Cannot read property '" ++ k ++ "' of null"))
  | VUndefined =>
      Rejected (RTypeError ("Cannot read property '" ++ k ++ "' of undefined"))
  | VObj o => Resolved (get k o)
  | VInst d => if String.eqb k "dataValues" then Resolved (VObj d)
               else Resolved (get k d)
  | _ => Resolved VUndefined
  end.

Definition obind {A B} (o : outcome A) (f : A -> outcome B) : outcome B :=
  match o with
  | Resolved a => f a
  | Rejected r => Rejected r
  end.

(** [xs.map(f)] where [f] may throw: the first throw ends the loop. *)
Fixpoint map_throwing {A B} (f : A -> outcome B) (xs : list A)
  : outcome (list B) :=
  match xs with
  | [] => Resolved []
  | x :: rest =>
      obind (f x) (fun y =>
      obind (map_throwing f rest) (fun ys => Resolved (y :: ys)))
  end.

End JS.

(** ** Promises over a world *)

Module Promise.
Import JS.

Section Chains.
Variable W : Type.

(** A chain started in a world settles with an outcome and leaves the
    next world. *)
Definition promise (A : Type) : Type := W -> outcome A * W.

(** [Q(x)] *)
Definition resolve {A} (a : A) : promise A := fun w => (Resolved a, w).

(** [Q.reject(r)], and a [throw] inside a callback *)
Definition reject {A} (r : reason) : promise A := fun w => (Rejected r, w).

(** The value or the exception of a synchronous expression. *)
Definition sync {A} (o : outcome A) : promise A := fun w => (o, w).

(** [p.then(f)] *)
Definition then_ {A B} (p : promise A) (f : A -> promise B) : promise B :=
  fun w =>
    match p w with
    | (Resolved a, w1) => f a w1
    | (Rejected r, w1) => (Rejected r, w1)
    end.

(** [p.tap(f)]: [f] runs for its effect and the value passes through;
    a rejection of [f] replaces it. *)
Definition tap {A} (p : promise A) (f : A -> promise unit) : promise A :=
  then_ p (fun a => then_ (f a) (fun _ => resolve a)).

(** [p.catch(h)] *)
Definition catch_ {A} (p : promise A) (h : reason -> promise A) : promise A :=
  fun w =>
    match p w with
    | (Resolved a, w1) => (Resolved a, w1)
    | (Rejected r, w1) => h r w1
    end.

(** [Q.all([p1, p2])]: the array is built first, so both operations
    are issued, in order, whatever the first one answers; the join is
    rejected with the first rejection. *)
Definition all2 {A B} (p1 : promise A) (p2 : promise B) : promise (A * B) :=
  fun w =>
    let (o1, w1) := p1 w in
    let (o2, w2) := p2 w1 in
    (obind o1 (fun a => obind o2 (fun b => Resolved (a, b))), w2).

(** [Q.all([p1, p2, p3])] *)
Definition all3 {A B C} (p1 : promise A) (p2 : promise B) (p3 : promise C)
  : promise (A * B * C) :=
  fun w =>
    let (o1, w1) := p1 w in
    let (o2, w2) := p2 w1 in
    let (o3, w3) := p3 w2 in
    (obind o1 (fun a => obind o2 (fun b => obind o3 (fun c =>
       Resolved (a, b, c)))), w3).
End Chains.

Arguments resolve {W A} a.
Arguments reject {W A} r.
Arguments sync {W A} o.
Arguments then_ {W A B} p f.
Arguments tap {W A} p f.
Arguments catch_ {W A} p h.
Arguments all2 {W A B} p1 p2.
Arguments all3 {W A B C} p1 p2 p3.

End Promise.

(** ** The Sequelize models [Member] and [Address] *)

Module Models.
Import JS Promise.

(** The options of [Member.findAll]: one included association with the
    attributes kept from it, and the attributes kept from the member. *)
Record findAll_query : Type := mkQuery {
  include_as : string;
  include_attributes : list string;
  attributes : list string
}.

(** A store operation as the service issues it. *)
Inductive call : Type :=
| AddressFindOrCreate (where_ defaults : obj)
| MemberFind (where_ : obj)
| MemberFindOne (where_ : obj) (attrs : list string)
| MemberFindAll (query : findAll_query)
| MemberCreate (values : obj)
| MemberUpdate (values where_ : obj)
| InstanceUpdate (instance : value) (values : obj).

(** A line written through [lib/logger]. *)
Inductive log_entry : Type :=
| MemberSignUpEvent (v : value)
| InfoEvent (tag : string) (v : value)
| ErrorLogged (e : reason)
| ErrorLoggedWith (tag : string) (e : reason).

(** The world of the member service: both tables with their key
    counters, the tokens [uuid.v4()] hands out and how many were drawn,
    the answer the store gives to its n-th call ([None]: it is carried
    out, [Some r]: it is rejected with [r] and changes nothing), the
    calls issued so far (oldest first) and the log. *)
Record world : Type := mkWorld {
  addresses : list obj;
  members : list obj;
  next_address_id : nat;
  next_member_id : nat;
  uuids : nat -> string;
  uuids_drawn : nat;
  verdicts : nat -> option reason;
  calls : list call;
  log : list log_entry
}.

Definition with_addresses (rows : list obj) (n : nat) (w : world) : world :=
  mkWorld rows (members w) n (next_member_id w) (uuids w) (uuids_drawn w)
          (verdicts w) (calls w) (log w).

Definition with_members (rows : list obj) (n : nat) (w : world) : world :=
  mkWorld (addresses w) rows (next_address_id w) n (uuids w) (uuids_drawn w)
          (verdicts w) (calls w) (log w).

Definition with_call (c : call) (w : world) : world :=
  mkWorld (addresses w) (members w) (next_address_id w) (next_member_id w)
          (uuids w) (uuids_drawn w) (verdicts w) (calls w ++ [c]) (log w).

Definition with_log (e : log_entry) (w : world) : world :=
  mkWorld (addresses w) (members w) (next_address_id w) (next_member_id w)
          (uuids w) (uuids_drawn w) (verdicts w) (calls w) (log w ++ [e]).

Definition with_uuid_drawn (w : world) : world :=
  mkWorld (addresses w) (members w) (next_address_id w) (next_member_id w)
          (uuids w) (S (uuids_drawn w)) (verdicts w) (calls w) (log w).

(** Modelled from the spec: the attributes of the [Member] model (the
    [models] directory is not part of the sources), as the data model
    lists them. *)
Definition member_columns : list string :=
  ["id"; "firstName"; "lastName"; "email"; "gender"; "dateOfBirth";
   "primaryPhoneNumber"; "secondaryPhoneNumber"; "residentialAddressId";
   "postalAddressId"; "membershipType"; "verified"; "verificationHash"].

(** A row satisfies a [where] clause when it agrees with every attribute
    of the clause. *)
Definition matches (where_ row : obj) : bool :=
  forallb (fun kv => value_eqb (get (fst kv) row) (snd kv)) where_.

(** The [attributes] option: the listed attributes of the row, in the
    listed order. *)
Definition project (attrs : list string) (row : obj) : obj :=
  map (fun k => (k, get k row)) attrs.

(** An update writes the attributes of [values] that are columns of the
    model and leaves every other attribute of the row as it is. *)
Definition write_columns (columns : list string) (values row : obj) : obj :=
  fold_left
    (fun acc kv =>
       if existsb (String.eqb (fst kv)) columns
       then set (fst kv) (snd kv) acc else acc)
    values row.

(** Every store operation is recorded when it is issued; the store then
    either rejects it, leaving the tables alone, or carries it out. *)
Definition issue {A} (c : call) (run : world -> A * world) : promise world A :=
  fun w =>
    let w1 := with_call c w in
    match verdicts w (length (calls w)) with
    | Some r => (Rejected r, w1)
    | None => let (a, w2) := run w1 in (Resolved a, w2)
    end.

(** Modelled from the spec: [Address.findOrCreate({where, defaults})]
    of the missing [models], lookup by exact attribute match, a new
    record only if no match exists; the answer is the pair
    [[instance, created]]. *)
Definition Address_findOrCreate (where_ defaults : obj)
  : promise world (value * bool) :=
  issue (AddressFindOrCreate where_ defaults) (fun w =>
    match find (matches where_) (addresses w) with
    | Some row => ((VInst row, false), w)
    | None =>
        let row := set "id" (VNum (next_address_id w)) defaults in
        ((VInst row, true),
         with_addresses (addresses w ++ [row]) (S (next_address_id w)) w)
    end).

(** Modelled from the spec: [Member.find({where})] of the missing
    [models], the first matching member or [null]. *)
Definition Member_find (where_ : obj) : promise world value :=
  issue (MemberFind where_) (fun w =>
    match find (matches where_) (members w) with
    | Some row => (VInst row, w)
    | None => (VNull, w)
    end).

(** Modelled from the spec: [Member.findOne({where, attributes})] of
    the missing [models], the first matching member restricted to
    [attributes], or [null]. *)
Definition Member_findOne (where_ : obj) (attrs : list string)
  : promise world value :=
  issue (MemberFindOne where_ attrs) (fun w =>
    match find (matches where_) (members w) with
    | Some row => (VInst (project attrs row), w)
    | None => (VNull, w)
    end).

(** The included association [as]: the address whose [id] is the
    member's [<as>Id], restricted to the attributes asked for, or [null]
    when the member has no such address. *)
Definition included (q : findAll_query) (w : world) (row : obj) : value :=
  match find (fun a => value_eqb (get "id" a) (get (include_as q ++ "Id") row))
             (addresses w) with
  | Some a => VInst (project (include_attributes q) a)
  | None => VNull
  end.

(** Modelled from the spec: [Member.findAll({include, attributes})] of
    the missing [models], all members, each restricted to [attributes]
    and carrying the included instance under its alias. *)
Definition Member_findAll (q : findAll_query) : promise world (list value) :=
  issue (MemberFindAll q) (fun w =>
    (map (fun row =>
            VInst (project (attributes q) row
                   ++ [(include_as q, included q w row)]))
         (members w), w)).

(** Modelled from the spec: [Member.create(values)] of the missing
    [models], a new row with a fresh [id]; the answer is the saved
    instance. *)
Definition Member_create (values : obj) : promise world value :=
  issue (MemberCreate values) (fun w =>
    let row := set "id" (VNum (next_member_id w)) values in
    (VInst row, with_members (members w ++ [row]) (S (next_member_id w)) w)).

(** Modelled from the spec: [Member.update(values, {where})] of the
    missing [models], every matching row takes the columns of [values];
    the answer is the array holding the number of rows affected. *)
Definition Member_update (values where_ : obj) : promise world value :=
  issue (MemberUpdate values where_) (fun w =>
    (VArr [VNum (length (filter (matches where_) (members w)))],
     with_members
       (map (fun row => if matches where_ row
                        then write_columns member_columns values row
                        else row)
            (members w))
       (next_member_id w) w)).

(** Modelled from the spec: [instance.update(values)] on an instance of
    the missing [Member] model, the row with the instance's [id] takes
    the columns of
    [values]; the answer is the instance with [values] merged into its
    [dataValues].  A value that is no instance has no [update] method. *)
Definition instance_update (instance : value) (values : obj)
  : promise world value :=
  match instance with
  | VInst d =>
      issue (InstanceUpdate instance values) (fun w =>
        (VInst (assign d values),
         with_members
           (map (fun row => if value_eqb (get "id" row) (get "id" d)
                            then write_columns member_columns values row
                            else row)
                (members w))
           (next_member_id w) w))
  | _ => reject (RTypeError "member.update is not a function")
  end.

(** [uuid.v4()]: the next token of the generator. *)
Definition uuid_v4 : promise world string :=
  fun w => (Resolved (uuids w (uuids_drawn w)), with_uuid_drawn w).

(** The logger writes a line and never throws. *)
Definition write_log (e : log_entry) : promise world unit :=
  fun w => (Resolved tt, with_log e w).

End Models.

(** ** [services/memberService.js] *)

Module MemberService.
Import JS Promise Models.

(** The member object a caller passes to [createMember] and
    [updateMember]: the properties the service reads. *)
Record member_details : Type := mkMember {
  firstName : value;
  lastName : value;
  email : value;
  gender : value;
  dateOfBirth : value;
  primaryPhoneNumber : value;
  secondaryPhoneNumber : value;
  residentialAddress : obj;
  postalAddress : obj;
  membershipType : value
}.

(** [moment(v, 'DD/MM/YYYY').toDate()] *)
Definition moment_toDate (v : value) : value := VDate v "DD/MM/YYYY".

(** The own properties [Object.assign] copies from a source. *)
Definition own_fields (v : value) : obj :=
  match v with
  | VObj o => o
  | VInst d => [("dataValues", VObj d)]
  | _ => []
  end.

Definition createVerificationHash : promise world string := uuid_v4.

Definition save (member : obj) : promise world value := Member_create member.

(** [pair[0].dataValues.id] *)
Definition first_id (pair : value * bool) : outcome value :=
  obind (prop "dataValues" (fst pair)) (prop "id").

Definition setupMember (newMember : member_details)
    (residentialAddress postalAddress : value * bool) : promise world obj :=
  then_ (sync (first_id residentialAddress)) (fun residentialAddressId =>
  then_ (sync (first_id postalAddress)) (fun postalAddressId =>
  then_ createVerificationHash (fun hash =>
  resolve
    [("firstName", firstName newMember);
     ("lastName", lastName newMember);
     ("email", email newMember);
     ("gender", gender newMember);
     ("dateOfBirth", moment_toDate (dateOfBirth newMember));
     ("primaryPhoneNumber", primaryPhoneNumber newMember);
     ("secondaryPhoneNumber", secondaryPhoneNumber newMember);
     ("residentialAddressId", residentialAddressId);
     ("postalAddressId", postalAddressId);
     ("membershipType", membershipType newMember);
     ("verified", VBool false);
     ("verificationHash", VStr hash)]))).

Definition logEvent (saveResult : value) : promise world unit :=
  then_ (sync (prop "dataValues" saveResult)) (fun d =>
  write_log (MemberSignUpEvent d)).

Definition getMemberAddresses (newMember : member_details)
  : promise world ((value * bool) * (value * bool)) :=
  all2 (Address_findOrCreate (residentialAddress newMember)
                             (residentialAddress newMember))
       (Address_findOrCreate (postalAddress newMember)
                             (postalAddress newMember)).

Definition createMember (newMember : member_details) : promise world value :=
  then_
    (tap
       (then_
          (then_ (getMemberAddresses newMember)
                 (fun both => setupMember newMember (fst both) (snd both)))
          save)
       logEvent)
    (fun savedMember => sync (prop "dataValues" savedMember)).

Definition updateMember (member : member_details) : promise world value :=
  catch_
    (tap
       (then_
          (then_
             (all3 (Member_find [("email", email member)])
                   (Address_findOrCreate (residentialAddress member)
                                         (residentialAddress member))
                   (Address_findOrCreate (postalAddress member)
                                         (postalAddress member)))
             (fun joined =>
                let '(user, residentialAddress, postalAddress) := joined in
                if negb (truthy user)
                then reject (RStr "Error: User email does not exist")
                else
                  then_ (sync (first_id residentialAddress)) (fun rid =>
                  then_ (sync (first_id postalAddress)) (fun pid =>
                  resolve
                    [("firstName", firstName member);
                     ("lastName", lastName member);
                     ("email", email member);
                     ("gender", gender member);
                     ("dateOfBirth", moment_toDate (dateOfBirth member));
                     ("primaryPhoneNumber", primaryPhoneNumber member);
                     ("secondaryPhoneNumber", secondaryPhoneNumber member);
                     ("residentialAddress", rid);
                     ("postalAddress", pid);
                     ("membershipType", membershipType member)]))))
          (fun updatedMember =>
             Member_update updatedMember [("email", email member)]))
       (fun a => write_log (MemberSignUpEvent a)))
    (fun error => reject error).

Definition transformMember (member : value) : outcome value :=
  obind (prop "dataValues" member) (fun newMemberRoot =>
  obind (obind (obind (prop "dataValues" member) (prop "residentialAddress"))
               (prop "dataValues")) (fun newResidentialAddressRoot =>
  Resolved
    (VObj (assign (assign [] (own_fields newMemberRoot))
                  [("residentialAddress", newResidentialAddressRoot)])))).

Definition transformMembers (memberQueryResult : list value)
  : outcome (list value) :=
  map_throwing transformMember memberQueryResult.

Definition handleError (error : reason) : promise world (list value) :=
  then_ (write_log (ErrorLogged error)) (fun _ =>
  reject (RStr "An error has occurred while fetching members")).

Definition list_query : findAll_query :=
  {| include_as := "residentialAddress";
     include_attributes := ["postcode"; "state"; "country"];
     attributes := ["id"; "firstName"; "lastName"; "membershipType";
                    "verified"] |}.

Definition list : promise world (list value) :=
  catch_
    (then_ (Member_findAll list_query)
           (fun memberQueryResult => sync (transformMembers memberQueryResult)))
    handleError.

(** The [where] clause and the [attributes] of the verification query. *)
Definition hash_clause (hash : string) : obj :=
  [("verificationHash", VStr hash)].

Definition verification_attributes : Datatypes.list string :=
  ["id"; "email"; "verified"].

Definition findForVerification (hash : string) : promise world value :=
  then_ (Member_findOne (hash_clause hash) verification_attributes)
        (fun result =>
           if negb (truthy result)
           then reject (RError ("Match not found for hash:" ++ hash))
           else resolve result).

Definition markAsVerified (member : value) : promise world value :=
  then_ (sync (obind (prop "dataValues" member) (prop "verified")))
        (fun verified =>
           if negb (truthy verified)
           then then_ (instance_update member [("verified", VBool true)])
                      (fun result => sync (prop "dataValues" result))
           else sync (prop "dataValues" member)).

Definition verify (hash : string) : promise world value :=
  catch_
    (tap (then_ (findForVerification hash) markAsVerified)
         (fun verifiedMember =>
            write_log (InfoEvent "[member-verification-event]" verifiedMember)))
    (fun error =>
       then_ (write_log (ErrorLoggedWith "[member-verification-failed]" error))
             (fun _ => reject (RError "Account could not be verified"))).


(** *** What a listing holds

    Stated next to the service so that the properties of [list] can
    refer to them. *)

(** The record [list] hands out for a member row whose residential
    address is the address row [address]. *)
Definition listed_record (row address : obj) : value :=
  VObj [("id", get "id" row);
        ("firstName", get "firstName" row);
        ("lastName", get "lastName" row);
        ("membershipType", get "membershipType" row);
        ("verified", get "verified" row);
        ("residentialAddress",
         VObj [("postcode", get "postcode" address);
               ("state", get "state" address);
               ("country", get "country" address)])].

Definition residential_of (w : world) (row : obj) : option obj :=
  find (fun a => value_eqb (get "id" a) (get "residentialAddressId" row))
       (addresses w).

Definition listed (w : world) (row : obj) (record : value) : Prop :=
  exists address,
    residential_of w row = Some address
    /\ record = listed_record row address.

(** The instance [Member.findAll] answers for a row, under the query of
    [list]. *)
Definition found_instance (w : world) (row : obj) : value :=
  VInst (project (attributes list_query) row
         ++ [(include_as list_query,
              included list_query w row)]).

End MemberService.

(** ** The groups controller *)

Module GroupsController.
Import JS Promise.

(** The parts of an Express request the controller reads:
    [req.params.branchId], [req.params.groupId], [req.body.name] and
    [req.body.description]. *)
Record request : Type := mkRequest {
  branchId : string;
  groupId : string;
  name : value;
  description : value
}.

(** What the controller does to [res]. *)
Inductive res_call : Type :=
| Status (code : nat)
| Json (body : value)
| SendStatus (code : nat).

(** The world of the controller: the groups [store.getGroups()] returns,
    the answer of the stream to its n-th publish ([None]: resolved), the
    events handed to [streamClient.publish] so far, the id generator and
    the calls made on [res]. *)
Record world : Type := mkWorld {
  groups : list obj;
  stream_answers : nat -> option reason;
  published : list (string * value);
  uuids : nat -> string;
  uuids_drawn : nat;
  responded : list res_call
}.

(** Modelled from the spec: [streamClient.publish(eventType, payload)],
    the publish operation of the event stream, whose client library is
    not part of the sources; every call is recorded, and the stream
    resolves or rejects it. *)
Definition publish (eventType : string) (payload : value)
  : promise world unit :=
  fun w =>
    let w1 := mkWorld (groups w) (stream_answers w)
                      (published w ++ [(eventType, payload)])
                      (uuids w) (uuids_drawn w) (responded w) in
    match stream_answers w (length (published w)) with
    | Some r => (Rejected r, w1)
    | None => (Resolved tt, w1)
    end.

Definition respond (c : res_call) : promise world unit :=
  fun w =>
    (Resolved tt,
     mkWorld (groups w) (stream_answers w) (published w) (uuids w)
             (uuids_drawn w) (responded w ++ [c])).

Definition uuid_v4 : promise world string :=
  fun w =>
    (Resolved (uuids w (uuids_drawn w)),
     mkWorld (groups w) (stream_answers w) (published w) (uuids w)
             (S (uuids_drawn w)) (responded w)).

Definition getGroups : promise world (list obj) :=
  fun w => (Resolved (groups w), w).

(** Modelled from the spec: [isNonEmptyString(v)] of the missing
    [lib/inputValidator], a pure predicate, true on a string that is not
    empty and false on anything else ([null] included). *)
Definition isNonEmptyString (v : value) : bool :=
  match v with
  | VStr s => negb (String.eqb s "")
  | _ => false
  end.

Definition valid_input (req : request) : bool :=
  isNonEmptyString (name req) && isNonEmptyString (description req).

(** [g.branchId === branchId && g.id === groupId] *)
Definition is_group (branch group : string) (g : obj) : bool :=
  value_eqb (get "branchId" g) (VStr branch)
  && value_eqb (get "id" g) (VStr group).

(** [g.branchId === branchId] *)
Definition in_branch (branch : string) (g : obj) : bool :=
  value_eqb (get "branchId" g) (VStr branch).

(** Modelled from the spec: [createGroup] of the missing
    [controllers/groupsController], fail fast with 400 when the
    name or the description is not a non-empty string; otherwise
    synthesize an id, build the group of the branch, publish
    [group-created] with the full record and answer 200 with the record
    once the publish resolves, 500 when it rejects. *)
Definition createGroup (req : request) : promise world unit :=
  if negb (valid_input req) then respond (SendStatus 400)
  else
    then_ uuid_v4 (fun id =>
    let group := [("id", VStr id); ("branchId", VStr (branchId req));
                  ("name", name req); ("description", description req)] in
    catch_
      (then_ (publish "group-created" (VObj group)) (fun _ =>
       then_ (respond (Status 200)) (fun _ => respond (Json (VObj group)))))
      (fun _ => respond (SendStatus 500))).

(** Modelled from the spec: [updateGroup] of the missing
    [controllers/groupsController], the same validation; the
    group is looked up by branch and id among all groups, and a miss
    takes the error path of a failed publish; otherwise publish
    [group-edited] with the merged record and answer 200 with it. *)
Definition updateGroup (req : request) : promise world unit :=
  if negb (valid_input req) then respond (SendStatus 400)
  else
    then_ getGroups (fun all =>
    match find (is_group (branchId req) (groupId req)) all with
    | None => respond (SendStatus 500)
    | Some group =>
        let merged := assign (assign [] group)
                        [("name", name req);
                         ("description", description req)] in
        catch_
          (then_ (publish "group-edited" (VObj merged)) (fun _ =>
           then_ (respond (Status 200)) (fun _ =>
           respond (Json (VObj merged)))))
          (fun _ => respond (SendStatus 500))
    end).

(** Modelled from the spec: [deleteGroup] of the missing
    [controllers/groupsController], look the group up by branch
    and id, publish [group-removed] with [{id}], answer with the status
    only. *)
Definition deleteGroup (req : request) : promise world unit :=
  then_ getGroups (fun all =>
  match find (is_group (branchId req) (groupId req)) all with
  | None => respond (SendStatus 500)
  | Some group =>
      catch_
        (then_ (publish "group-removed" (VObj [("id", get "id" group)]))
               (fun _ => respond (SendStatus 200)))
        (fun _ => respond (SendStatus 500))
  end).

(** Modelled from the spec: [getBranchGroups] of the missing
    [controllers/groupsController], filter the full group
    collection by branch and answer 200 with [{groups: [...]}]. *)
Definition getBranchGroups (req : request) : promise world unit :=
  then_ getGroups (fun all =>
  then_ (respond (Status 200)) (fun _ =>
  respond
    (Json (VObj [("groups",
                  VArr (map VObj (filter (in_branch (branchId req)) all)))])))).

(** The listing as the spec words it: [kept] holds exactly the groups
    of [all] whose [branchId] is [branch], in their original relative
    order.  It is compared with the filter of [getBranchGroups]. *)
Inductive branch_listing (branch : string) : list obj -> list obj -> Prop :=
| listing_nil : branch_listing branch [] []
| listing_keep g all kept :
    get "branchId" g = VStr branch ->
    branch_listing branch all kept ->
    branch_listing branch (g :: all) (g :: kept)
| listing_skip g all kept :
    get "branchId" g <> VStr branch ->
    branch_listing branch all kept ->
    branch_listing branch (g :: all) kept.

End GroupsController.

(** ** The PayPal notification handler *)

Module PaypalIpn.
Import JS.

(** [req.body]: the fields of the form-encoded notification. *)
Definition body : Type := list (string * string).

(** [req.body[k]]: the field, or [undefined] ([None]) when the
    notification has no such field. *)
Fixpoint field (k : string) (b : body) : option string :=
  match b with
  | [] => None
  | (k', v) :: rest => if String.eqb k k' then Some v else field k rest
  end.

(** What the handler does to [res]. *)
Inductive res_call : Type :=
| Status (code : nat)
| End_.

(** The world of the handler: the error [paypalIpn.verify] hands to its
    callback for a notification ([None]: the notification is authentic),
    the calls made on [res], the lines written with [console.error] and
    the arguments of the calls to [invoiceService.paypalChargeSuccess]. *)
Record world : Type := mkWorld {
  verification : body -> option reason;
  responded : list res_call;
  console_errors : list reason;
  charges : list (option string * option string)
}.

Definition respond (c : res_call) (w : world) : world :=
  mkWorld (verification w) (responded w ++ [c]) (console_errors w) (charges w).

Definition console_error (e : reason) (w : world) : world :=
  mkWorld (verification w) (responded w) (console_errors w ++ [e]) (charges w).

Definition paypalChargeSuccess (custom txn_id : option string) (w : world)
  : world :=
  mkWorld (verification w) (responded w) (console_errors w)
          (charges w ++ [(custom, txn_id)]).

(** [v == 'Completed'] on a field: a string is compared as it is,
    [undefined] is not equal to any string. *)
Definition loosely_equal (v : option string) (s : string) : bool :=
  match v with
  | Some t => String.eqb t s
  | None => false
  end.

(** The callback handed to [paypalIpn.verify]. *)
Definition callback (b : body) (err : option reason) (w : world) : world :=
  match err with
  | Some e => console_error e w
  | None =>
      if loosely_equal (field "payment_status" b) "Completed"
      then paypalChargeSuccess (field "custom" b) (field "txn_id" b) w
      else w
  end.

(** [handleIpn(req, res)]: the status is set, the check is started, the
    response is ended; the callback of the check runs once the provider
    has answered. *)
Definition handleIpn (b : body) (w : world) : world :=
  let w1 := respond (Status 200) w in
  let w2 := respond End_ w1 in
  callback b (verification w b) w2.

End PaypalIpn.

(** ** The admin dashboard *)

Module AdminDashboard.
Import JS.

(** [a === b]: primitives are compared by value; an object, an array or
    a date is only identical to itself, and the values compared here
    come from different answers of the services. *)
Definition strict_eq (a b : value) : bool :=
  match a, b with
  | VUndefined, VUndefined => true
  | VNull, VNull => true
  | VBool x, VBool y => Bool.eqb x y
  | VNum x, VNum y => Nat.eqb x y
  | VStr x, VStr y => String.eqb x y
  | _, _ => false
  end.

(** A participant as the lab service answers it: the array [Groups] and
    the other properties. *)
Record participant : Type := mkParticipant {
  details : obj;
  Groups : list obj
}.

(** [this.state] *)
Record state : Type := mkState {
  participants : list participant;
  groups : list obj;
  labs : list obj;
  groupFilter : value;
  currentLab : value;
  filteredParticipantList : list participant
}.

(** [this.setState({groups: gs})] *)
Definition setGroups (gs : list obj) (st : state) : state :=
  mkState (participants st) gs (labs st) (groupFilter st) (currentLab st)
          (filteredParticipantList st).

(** [this.setState({groupFilter: f})] *)
Definition setGroupFilter (f : value) (st : state) : state :=
  mkState (participants st) (groups st) (labs st) f (currentLab st)
          (filteredParticipantList st).

(** [this.setState({filteredParticipantList: ps})] *)
Definition setFiltered (ps : list participant) (st : state) : state :=
  mkState (participants st) (groups st) (labs st) (groupFilter st)
          (currentLab st) ps.

(** [g => g.id === savedGroup.id] *)
Definition same_id (savedGroup g : obj) : bool :=
  strict_eq (get "id" g) (get "id" savedGroup).

(** [Object.assign(group, savedGroup)] on the element [find] returned:
    the first element with the id is the one that changes. *)
Fixpoint assign_found (savedGroup : obj) (gs : list obj) : list obj :=
  match gs with
  | [] => []
  | g :: rest =>
      if same_id savedGroup g then assign g savedGroup :: rest
      else g :: assign_found savedGroup rest
  end.

(** The callback of [onSaveGroup], run with the group the group service
    saved: the copy of the groups either has the group with that id
    overwritten or the saved group pushed at its end. *)
Definition onSaveGroup_saved (savedGroup : obj) (st : state) : state :=
  let groups := groups st in
  match find (same_id savedGroup) groups with
  | Some _ => setGroups (assign_found savedGroup groups) st
  | None => setGroups (groups ++ [savedGroup]) st
  end.

(** [element.Groups.filter(group => group.id === groupFilter).length > 0] *)
Definition in_selected_group (groupFilter : value) (element : participant)
  : bool :=
  Nat.ltb 0
    (length (filter (fun group => strict_eq (get "id" group) groupFilter)
                    (Groups element))).

Definition filterParticipantList (st : state) : state :=
  if strict_eq (groupFilter st) (VStr "")
  then setFiltered (participants st) st
  else setFiltered
         (filter (in_selected_group (groupFilter st)) (participants st)) st.

(** [onSelectGroup(groupId)]: the list is filtered once the filter is
    part of the state. *)
Definition onSelectGroup (groupId : value) (st : state) : state :=
  filterParticipantList (setGroupFilter groupId st).

End AdminDashboard.

(** ** Sample data *)

Module Examples.
Import JS Promise Models.

Definition baker_street : obj :=
  [("address", VStr "221b Baker St"); ("suburb", VStr "London");
   ("postcode", VStr "1234"); ("state", VStr "VIC");
   ("country", VStr "Australia")].

Definition pall_mall : obj :=
  [("address", VStr "303 Pall Mall"); ("suburb", VStr "London");
   ("postcode", VStr "4321"); ("state", VStr "NSW");
   ("country", VStr "Australia")].

Definition sherlock : MemberService.member_details :=
  MemberService.mkMember
    (VStr "Sherlock") (VStr "Holmes") (VStr "sherlock@holmes.co.uk")
    (VStr "horse radish") (VStr "22/12/1900") (VStr "0396291146")
    (VStr "0394291146") baker_street pall_mall (VStr "full").

Definition moriarty : MemberService.member_details :=
  MemberService.mkMember
    (VStr "James") (VStr "Moriarty") (VStr "james@moriarty.co.uk")
    VNull (VStr "01/01/1890") (VStr "0396291147") VNull
    pall_mall pall_mall (VStr "full").

Definition token (n : nat) : string :=
  match n with
  | 0 => "f47ac10b-58cc-4372-a567-0e02b2c3d479"
  | 1 => "9c858901-8a57-4791-81fe-4c455b099bc9"
  | _ => "16fd2706-8baf-433b-82eb-8c7fada847da"
  end.

(** Empty tables, a store that answers every call. *)
Definition empty_world : world :=
  mkWorld [] [] 1 1 token 0 (fun _ => None) [] [].

(** The world after Sherlock signed up, and after he was verified. *)
Definition signed_up : world :=
  Eval vm_compute in snd (MemberService.createMember sherlock empty_world).

Definition sherlock_row : obj :=
  Eval vm_compute in hd [] (members signed_up).

Definition verified_world : world :=
  Eval vm_compute in snd (MemberService.verify (token 0) signed_up).

Definition verified_row : obj :=
  Eval vm_compute in hd [] (members verified_world).

(** The groups of the controller's tests, and a stream that rejects. *)
Definition some_groups : list obj :=
  [[("id", VStr "1"); ("name", VStr "First");
    ("branchId", VStr "some-branch-id")];
   [("id", VStr "2"); ("name", VStr "Second");
    ("branchId", VStr "some-other-id")];
   [("id", VStr "3"); ("name", VStr "Third");
    ("branchId", VStr "some-branch-id")]].

Definition bummer_world : GroupsController.world :=
  GroupsController.mkWorld some_groups (fun _ => Some (RStr "Bummer")) []
                           token 0 [].

Definition valid_request : GroupsController.request :=
  GroupsController.mkRequest "some-branch-id" "3" (VStr "new-name")
                             (VStr "new-description").

Definition nameless_request : GroupsController.request :=
  GroupsController.mkRequest "some-branch-id" "3" VNull
                             (VStr "some-description").

End Examples.

(** ** More sample data *)

Module MoreExamples.
Import JS Promise Models Examples.

(** A store that answers the two address calls and rejects the third
    call, the creation of the member. *)
Definition rejecting_world : world :=
  mkWorld [] [] 1 1 token 0
          (fun n => match n with
                    | 2 => Some (RError "Validation error")
                    | _ => None
                    end)
          [] [].

(** Sherlock moves in with his brother and changes his first name. *)
Definition sherlock_moved : MemberService.member_details :=
  MemberService.mkMember
    (VStr "William") (VStr "Holmes") (VStr "sherlock@holmes.co.uk")
    (VStr "horse radish") (VStr "22/12/1900") (VStr "0396291146")
    VNull pall_mall pall_mall (VStr "full").

(** A member whose residential address row is gone. *)
Definition homeless_world : world :=
  mkWorld [] [[("id", VNum 1); ("firstName", VStr "Irene");
               ("residentialAddressId", VNum 7)]]
          1 2 token 0 (fun _ => None) [] [].

(** The notification of the provider's simulator, cut to the fields the
    handler reads. *)
Definition completed_notification : PaypalIpn.body :=
  [("txn_id", "421462822"); ("custom", "xyz123 CUSTOMHASH");
   ("payment_status", "Completed")].

Definition pending_notification : PaypalIpn.body :=
  [("txn_id", "421462823"); ("custom", "xyz123 CUSTOMHASH");
   ("payment_status", "Pending")].

Definition trusting_provider : PaypalIpn.world :=
  PaypalIpn.mkWorld (fun _ => None) [] [] [].

Definition distrusting_provider : PaypalIpn.world :=
  PaypalIpn.mkWorld (fun _ => Some (RError "IPN Verification status: INVALID"))
                    [] [] [].

(** A dashboard with two groups and three participants. *)
Definition book_club : obj :=
  [("id", VStr "g1"); ("name", VStr "Book Club")].

Definition chess_club : obj :=
  [("id", VStr "g2"); ("name", VStr "Chess Club")].

Definition renamed_book_club : obj :=
  [("id", VStr "g1"); ("name", VStr "Reading Circle");
   ("description", VStr "Weekly meetup")].

Definition hiking_club : obj :=
  [("id", VStr "g3"); ("name", VStr "Hiking Club")].

Definition ada : AdminDashboard.participant :=
  AdminDashboard.mkParticipant [("name", VStr "Ada")] [book_club; chess_club].

Definition grace : AdminDashboard.participant :=
  AdminDashboard.mkParticipant [("name", VStr "Grace")] [chess_club].

Definition alan : AdminDashboard.participant :=
  AdminDashboard.mkParticipant [("name", VStr "Alan")] [].

Definition dashboard : AdminDashboard.state :=
  AdminDashboard.mkState [ada; grace; alan] [book_club; chess_club] []
                         (VStr "") VNull [ada; grace; alan].

End MoreExamples.

(** * Properties *)

(** ** Values *)

Section ValueFacts.
Import JS.

Lemma value_eqb_refl : forall v, value_eqb v v = true.
Proof.
  fix IH 1.
  intros [ | | b | n | s | raw fmt | items | fields | d]; simpl.
  - reflexivity.
  - reflexivity.
  - apply Bool.eqb_reflx.
  - apply Nat.eqb_refl.
  - apply String.eqb_refl.
  - rewrite (IH raw), String.eqb_refl. reflexivity.
  - induction items as [ | x rest IHrest]; [reflexivity | ].
    rewrite (IH x). exact IHrest.
  - induction fields as [ | [k x] rest IHrest]; [reflexivity | ].
    rewrite String.eqb_refl, (IH x). exact IHrest.
  - induction d as [ | [k x] rest IHrest]; [reflexivity | ].
    rewrite String.eqb_refl, (IH x). exact IHrest.
Qed.

(** Comparing with a string literal is strict equality with it. *)
Lemma value_eqb_VStr (v : value) (s : string) :
  value_eqb v (VStr s) = true <-> v = VStr s.
Proof.
  split.
  - destruct v; simpl; try discriminate.
    intros H. apply String.eqb_eq in H. now subst.
  - intros ->. apply value_eqb_refl.
Qed.

Lemma get_set_same (k : string) (v : value) (o : obj) :
  get k (set k v o) = v.
Proof.
  induction o as [ | [k' v'] rest IH]; simpl.
  - now rewrite String.eqb_refl.
  - destruct (String.eqb k k') eqn:E; simpl; rewrite E; [reflexivity | exact IH].
Qed.

Lemma get_set_other (k k' : string) (v : value) (o : obj) :
  k' <> k -> get k' (set k v o) = get k' o.
Proof.
  intros Hne. induction o as [ | [k0 v0] rest IH]; simpl.
  - destruct (String.eqb k' k) eqn:E; [ | reflexivity].
    apply String.eqb_eq in E. contradiction.
  - destruct (String.eqb k k0) eqn:E; simpl.
    + apply String.eqb_eq in E. subst k0.
      destruct (String.eqb k' k) eqn:E'; [ | reflexivity].
      apply String.eqb_eq in E'. contradiction.
    + now rewrite IH.
Qed.

(** The comparison of the tables only equates equal values. *)
Lemma value_eqb_eq : forall a b, value_eqb a b = true -> a = b.
Proof.
  fix IH 1.
  intros a b.
  destruct a as [ | | x | x | x | x f | xs | xs | xs];
    destruct b as [ | | y | y | y | y g | ys | ys | ys];
    simpl; try discriminate; intros H.
  - reflexivity.
  - reflexivity.
  - apply Bool.eqb_prop in H. now subst.
  - apply Nat.eqb_eq in H. now subst.
  - apply String.eqb_eq in H. now subst.
  - apply Bool.andb_true_iff in H. destruct H as [Hraw Hfmt].
    apply String.eqb_eq in Hfmt. apply IH in Hraw. now subst.
  - f_equal. revert ys H.
    induction xs as [ | x rest IHrest]; intros [ | y ys] H;
      try discriminate; [reflexivity | ].
    apply Bool.andb_true_iff in H. destruct H as [Hx Hrest].
    f_equal; [now apply IH | now apply IHrest].
  - f_equal. revert ys H.
    induction xs as [ | [k x] rest IHrest]; intros [ | [k' y] ys] H;
      try discriminate; [reflexivity | ].
    apply Bool.andb_true_iff in H. destruct H as [Hkx Hrest].
    apply Bool.andb_true_iff in Hkx. destruct Hkx as [Hk Hx].
    apply String.eqb_eq in Hk. apply IH in Hx. subst.
    f_equal. now apply IHrest.
  - f_equal. revert ys H.
    induction xs as [ | [k x] rest IHrest]; intros [ | [k' y] ys] H;
      try discriminate; [reflexivity | ].
    apply Bool.andb_true_iff in H. destruct H as [Hkx Hrest].
    apply Bool.andb_true_iff in Hkx. destruct Hkx as [Hk Hx].
    apply String.eqb_eq in Hk. apply IH in Hx. subst.
    f_equal. now apply IHrest.
Qed.

Lemma has_key_keys (k : string) (o : obj) :
  has_key k o = true <-> In k (keys o).
Proof.
  induction o as [ | [k' v'] rest IH]; simpl.
  - split; [discriminate | tauto].
  - rewrite Bool.orb_true_iff, IH, String.eqb_eq. intuition congruence.
Qed.

Lemma get_missing (k : string) (o : obj) :
  has_key k o = false -> get k o = VUndefined.
Proof.
  induction o as [ | [k' v'] rest IH]; simpl; [reflexivity | ].
  intros H. apply Bool.orb_false_iff in H. destruct H as [Hk Hrest].
  rewrite Hk. now apply IH.
Qed.

(** Reading a property after [Object.assign]: the source wins on the
    properties it has, the target keeps the others. *)
Lemma get_assign (k : string) (source : obj) :
  NoDup (keys source) ->
  forall target,
    get k (assign target source)
    = if has_key k source then get k source else get k target.
Proof.
  unfold assign.
  induction source as [ | [k' v'] rest IH]; intros Hnodup target; simpl.
  - reflexivity.
  - inversion Hnodup as [ | ? ? Hfresh Hrest]; subst.
    rewrite (IH Hrest).
    destruct (String.eqb k k') eqn:E; simpl.
    + apply String.eqb_eq in E. subst k'.
      destruct (has_key k rest) eqn:Hk.
      * apply has_key_keys in Hk. contradiction.
      * apply get_set_same.
    + destruct (has_key k rest); [reflexivity | ].
      apply get_set_other. intros ->. rewrite String.eqb_refl in E.
      discriminate.
Qed.

End ValueFacts.

(** ** The groups controller *)

Section GroupsControllerFacts.
Import JS Promise GroupsController.
Local Open Scope list_scope.

Lemma in_branch_true (branch : string) (g : obj) :
  in_branch branch g = true <-> get "branchId" g = VStr branch.
Proof. unfold in_branch. apply value_eqb_VStr. Qed.

Lemma in_branch_false (branch : string) (g : obj) :
  in_branch branch g = false <-> get "branchId" g <> VStr branch.
Proof.
  rewrite <- in_branch_true.
  destruct (in_branch branch g); split; congruence.
Qed.

(** The filter of the controller computes the listing of the spec. *)
Lemma filter_branch_listing (branch : string) (all : list obj) :
  branch_listing branch all (filter (in_branch branch) all).
Proof.
  induction all as [ | g rest IH]; simpl.
  - constructor.
  - destruct (in_branch branch g) eqn:E.
    + apply listing_keep; [now apply in_branch_true | exact IH].
    + apply listing_skip; [now apply in_branch_false | exact IH].
Qed.

(** The listing of the spec is a function of the collection. *)
Lemma branch_listing_unique (branch : string) (all kept : list obj) :
  branch_listing branch all kept -> kept = filter (in_branch branch) all.
Proof.
  induction 1 as [ | g all kept Hg _ IH | g all kept Hg _ IH]; simpl.
  - reflexivity.
  - apply in_branch_true in Hg. rewrite Hg. now f_equal.
  - apply in_branch_false in Hg. now rewrite Hg.
Qed.

(** C1: when the stream rejects the publish, a create or an update
    request that passes input validation, and a delete request, are
    answered with [sendStatus(500)] alone: no 200 is sent. *)
Theorem publish_rejection_answers_500
    (req : request) (w : world) (r : reason) :
  stream_answers w (length (published w)) = Some r ->
  (valid_input req = true ->
   responded (snd (createGroup req w)) = responded w ++ [SendStatus 500])
  /\ (valid_input req = true ->
      responded (snd (updateGroup req w)) = responded w ++ [SendStatus 500])
  /\ responded (snd (deleteGroup req w)) = responded w ++ [SendStatus 500].
Proof.
  intros Hrej. repeat split.
  - intros Hvalid. unfold createGroup. rewrite Hvalid. simpl.
    unfold then_, catch_, publish, uuid_v4, respond. simpl.
    rewrite Hrej. reflexivity.
  - intros Hvalid. unfold updateGroup. rewrite Hvalid. simpl.
    unfold then_, getGroups.
    destruct (find (is_group (branchId req) (groupId req)) (groups w));
      [ | reflexivity].
    unfold catch_, then_, publish, respond. simpl.
    rewrite Hrej. reflexivity.
  - unfold deleteGroup, then_, getGroups.
    destruct (find (is_group (branchId req) (groupId req)) (groups w));
      [ | reflexivity].
    unfold catch_, then_, publish, respond. simpl.
    rewrite Hrej. reflexivity.
Qed.

(** C3: a create request whose name or description is not a non-empty
    string is answered with [sendStatus(400)]; nothing is published, no
    id is generated and the groups are left as they were. *)
Theorem createGroup_invalid_input_400 (req : request) (w : world) :
  isNonEmptyString (name req) = false
  \/ isNonEmptyString (description req) = false ->
  fst (createGroup req w) = Resolved tt
  /\ responded (snd (createGroup req w)) = responded w ++ [SendStatus 400]
  /\ published (snd (createGroup req w)) = published w
  /\ groups (snd (createGroup req w)) = groups w
  /\ uuids_drawn (snd (createGroup req w)) = uuids_drawn w.
Proof.
  intros Hbad.
  assert (Hinvalid : valid_input req = false).
  { unfold valid_input. destruct Hbad as [H | H]; rewrite H.
    - reflexivity.
    - apply Bool.andb_false_r. }
  unfold createGroup. rewrite Hinvalid. simpl. repeat split.
Qed.

(** C7: [getBranchGroups] answers 200 with [{groups: [...]}] holding
    exactly the groups of the branch in their original order; it
    publishes nothing and changes nothing but the response. *)
Theorem getBranchGroups_lists_branch (req : request) (w : world) :
  exists kept : list obj,
    branch_listing (branchId req) (groups w) kept
    /\ (forall g, In g kept <->
                  In g (groups w) /\ get "branchId" g = VStr (branchId req))
    /\ fst (getBranchGroups req w) = Resolved tt
    /\ responded (snd (getBranchGroups req w))
       = responded w ++ [Status 200;
                         Json (VObj [("groups", VArr (map VObj kept))])]
    /\ groups (snd (getBranchGroups req w)) = groups w
    /\ published (snd (getBranchGroups req w)) = published w
    /\ uuids_drawn (snd (getBranchGroups req w)) = uuids_drawn w.
Proof.
  exists (filter (in_branch (branchId req)) (groups w)).
  split; [apply filter_branch_listing | ].
  split.
  - intros g. rewrite filter_In, in_branch_true. reflexivity.
  - unfold getBranchGroups, then_, getGroups, respond. simpl.
    rewrite <- app_assoc. simpl. repeat split.
Qed.

(** The cases of the controller's test suite. *)

Example createGroup_puts_an_event_on_the_stream :
  let w := mkWorld [] (fun _ => None) [] Examples.token 0 [] in
  let req := mkRequest "some-branch-id" "" (VStr "some-name")
                       (VStr "some-description") in
  let group := VObj [("id", VStr (Examples.token 0));
                     ("branchId", VStr "some-branch-id");
                     ("name", VStr "some-name");
                     ("description", VStr "some-description")] in
  responded (snd (createGroup req w)) = [Status 200; Json group]
  /\ published (snd (createGroup req w)) = [("group-created", group)].
Proof. split; reflexivity. Qed.

Example deleteGroup_puts_an_event_on_the_stream :
  let w := mkWorld [[("id", VStr "some-group");
                     ("branchId", VStr "some-branch")]]
                   (fun _ => None) [] Examples.token 0 [] in
  let req := mkRequest "some-branch" "some-group" VUndefined VUndefined in
  responded (snd (deleteGroup req w)) = [SendStatus 200]
  /\ published (snd (deleteGroup req w))
     = [("group-removed", VObj [("id", VStr "some-group")])].
Proof. split; reflexivity. Qed.

Example updateGroup_puts_an_event_on_the_stream :
  let w := mkWorld [[("id", VStr "some-group-id");
                     ("branchId", VStr "some-branch-id")]]
                   (fun _ => None) [] Examples.token 0 [] in
  let req := mkRequest "some-branch-id" "some-group-id" (VStr "new-name")
                       (VStr "new-description") in
  let newGroupData := VObj [("id", VStr "some-group-id");
                            ("branchId", VStr "some-branch-id");
                            ("name", VStr "new-name");
                            ("description", VStr "new-description")] in
  responded (snd (updateGroup req w)) = [Status 200; Json newGroupData]
  /\ published (snd (updateGroup req w)) = [("group-edited", newGroupData)].
Proof. split; reflexivity. Qed.

Example getBranchGroups_gets_the_groups_of_the_branch :
  let w := mkWorld Examples.some_groups (fun _ => None) [] Examples.token 0 []
  in
  let req := mkRequest "some-branch-id" "" VUndefined VUndefined in
  responded (snd (getBranchGroups req w))
  = [Status 200;
     Json (VObj [("groups",
                  VArr [VObj [("id", VStr "1"); ("name", VStr "First");
                              ("branchId", VStr "some-branch-id")];
                        VObj [("id", VStr "3"); ("name", VStr "Third");
                              ("branchId", VStr "some-branch-id")]])])].
Proof. reflexivity. Qed.

End GroupsControllerFacts.

(** ** The member service *)

Section MemberServiceFacts.
Import JS Promise Models.
Local Open Scope list_scope.

(** Case analysis on the next answer of the store or the next lookup. *)
Ltac next_case :=
  match goal with
  | |- context [match verdicts ?w ?n with _ => _ end] =>
      let E := fresh "Hverdict" in destruct (verdicts w n) eqn:E
  | |- context [match find ?p ?l with _ => _ end] =>
      let E := fresh "Hfind" in destruct (find p l) eqn:E
  | |- context [if negb (truthy ?v) then _ else _] =>
      let E := fresh "Htruthy" in destruct (truthy v) eqn:E
  end; cbn -[matches write_columns member_columns].

Ltac run_chain :=
  cbv [then_ tap catch_ all2 all3 resolve reject sync issue obind
       MemberService.hash_clause MemberService.verification_attributes
       Member_find Member_findOne Member_create Member_update
       Address_findOrCreate instance_update uuid_v4 write_log
       MemberService.createVerificationHash MemberService.save
       MemberService.first_id MemberService.logEvent
       MemberService.getMemberAddresses MemberService.setupMember];
  cbn -[matches write_columns member_columns].

Ltac run_chain_in H :=
  cbv [then_ tap catch_ all2 all3 resolve reject sync issue obind
       MemberService.verification_attributes
       Member_find Member_findOne Member_create Member_update
       Address_findOrCreate instance_update uuid_v4 write_log
       MemberService.createVerificationHash MemberService.save
       MemberService.first_id MemberService.logEvent
       MemberService.getMemberAddresses MemberService.setupMember] in H;
  cbn -[matches write_columns member_columns] in H.

Lemma no_match_find_none (where_ : obj) (rows : list obj) :
  (forall row, In row rows -> matches where_ row = false) ->
  find (matches where_) rows = None.
Proof.
  intros Hnone. destruct (find (matches where_) rows) as [row | ] eqn:E.
  - apply find_some in E. destruct E as [Hin Hm].
    rewrite (Hnone row Hin) in Hm. discriminate.
  - reflexivity.
Qed.

(** An update leaves alone every attribute its values do not name. *)
Lemma write_columns_other (columns : list string) (k : string)
    (values row : obj) :
  has_key k values = false ->
  get k (write_columns columns values row) = get k row.
Proof.
  unfold write_columns. revert row.
  induction values as [ | [k' v'] rest IH]; intros row Hk; simpl in *.
  - reflexivity.
  - apply Bool.orb_false_iff in Hk. destruct Hk as [Hne Hrest].
    rewrite (IH _ Hrest).
    destruct (existsb (String.eqb k') columns); [ | reflexivity].
    apply get_set_other. intros ->. rewrite String.eqb_refl in Hne.
    discriminate.
Qed.

(** C5: when no member row matches the email, [updateMember] is
    rejected; no member row is written, and when the store answers every
    call the rejection is the descriptive error of the service. *)
Theorem updateMember_unknown_email_rejects
    (member : MemberService.member_details) (w : world) :
  (forall row, In row (members w) ->
               matches [("email", MemberService.email member)] row = false) ->
  exists r,
    fst (MemberService.updateMember member w) = Rejected r
    /\ members (snd (MemberService.updateMember member w)) = members w
    /\ ((forall n, verdicts w n = None) ->
        r = RStr "Error: User email does not exist").
Proof.
  intros Hnone. apply no_match_find_none in Hnone.
  unfold MemberService.updateMember. run_chain. rewrite Hnone.
  repeat next_case;
    (eexists; split; [reflexivity | split; [reflexivity | ]]);
    intros Hall; try reflexivity;
    match goal with
    | H : verdicts w ?n = Some _ |- _ => rewrite (Hall n) in H; discriminate
    end.
Qed.

(** The rows after an update agree with the rows before on every
    attribute the values do not name. *)
Lemma update_rows_other (k : string) (values where_ : obj) (rows : list obj) :
  has_key k values = false ->
  map (get k)
      (map (fun row => if matches where_ row
                       then write_columns member_columns values row
                       else row) rows)
  = map (get k) rows.
Proof.
  intros Hk. rewrite map_map. apply map_ext. intros row.
  destruct (matches where_ row); [ | reflexivity].
  now apply write_columns_other.
Qed.

(** C9: the values [updateMember] hands to [Member.update] name neither
    [verified] nor [verificationHash], and after the call every member
    row has the [verified] flag and the [verificationHash] it had. *)
Theorem updateMember_keeps_verification
    (member : MemberService.member_details) (w : world) :
  (exists issued,
      calls (snd (MemberService.updateMember member w)) = calls w ++ issued
      /\ forall values where_,
           In (MemberUpdate values where_) issued ->
           has_key "verified" values = false
           /\ has_key "verificationHash" values = false)
  /\ map (get "verified") (members (snd (MemberService.updateMember member w)))
     = map (get "verified") (members w)
  /\ map (get "verificationHash")
         (members (snd (MemberService.updateMember member w)))
     = map (get "verificationHash") (members w).
Proof.
  unfold MemberService.updateMember. run_chain.
  repeat next_case;
    (split;
     [ repeat rewrite <- app_assoc; eexists; split; [reflexivity | ];
       intros values where_ Hin; simpl in Hin;
       repeat (destruct Hin as [Hin | Hin]; try discriminate Hin);
       try contradiction;
       injection Hin as <- _; split; reflexivity
     | split;
       first [ reflexivity | apply update_rows_other; reflexivity ] ]).
Qed.

(** C10: [updateMember] issues the member lookup and both address
    find-or-create calls before it looks at the answer of the lookup; so
    there is a call that is rejected for an unknown email and has
    nevertheless created both address rows. *)
Theorem updateMember_rejects_after_creating_addresses :
  (forall member w, exists rest,
      calls (snd (MemberService.updateMember member w))
      = calls w
        ++ [MemberFind [("email", MemberService.email member)];
            AddressFindOrCreate (MemberService.residentialAddress member)
                                (MemberService.residentialAddress member);
            AddressFindOrCreate (MemberService.postalAddress member)
                                (MemberService.postalAddress member)]
        ++ rest)
  /\ exists member w,
       fst (MemberService.updateMember member w)
       = Rejected (RStr "Error: User email does not exist")
       /\ members w = []
       /\ addresses w = []
       /\ members (snd (MemberService.updateMember member w)) = []
       /\ addresses (snd (MemberService.updateMember member w))
          = [ [("postcode", VStr "3000"); ("id", VNum 1)];
              [("postcode", VStr "3053"); ("id", VNum 2)] ].
Proof.
  split.
  - intros member w. unfold MemberService.updateMember. run_chain.
    repeat next_case; repeat rewrite <- app_assoc; simpl;
      eexists; (reflexivity || (rewrite app_nil_r; reflexivity)
                || (f_equal; f_equal; f_equal; f_equal; reflexivity)).
  - exists (MemberService.mkMember
              (VStr "Sherlock") (VStr "Holmes") (VStr "sherlock@holmes.uk")
              VNull (VStr "22/12/1900") (VStr "0396291146") VNull
              [("postcode", VStr "3000")] [("postcode", VStr "3053")]
              (VStr "full")).
    exists (mkWorld [] [] 1 1 (fun _ => "f47ac10b") 0 (fun _ => None) [] []).
    repeat split.
Qed.

(** What an answered find-or-create leaves behind: an instance of a row
    of the address table, one more call, and nothing else touched. *)
Lemma findOrCreate_answer (where_ defaults : obj) (w w1 : world)
    (a : value) (created : bool) :
  Address_findOrCreate where_ defaults w = (Resolved (a, created), w1) ->
  exists row,
    a = VInst row
    /\ In row (addresses w1)
    /\ (forall r, In r (addresses w) -> In r (addresses w1))
    /\ calls w1 = calls w ++ [AddressFindOrCreate where_ defaults]
    /\ members w1 = members w
    /\ next_member_id w1 = next_member_id w
    /\ uuids w1 = uuids w
    /\ uuids_drawn w1 = uuids_drawn w
    /\ verdicts w1 = verdicts w
    /\ log w1 = log w.
Proof.
  unfold Address_findOrCreate, issue.
  destruct (verdicts w (length (calls w))); [discriminate | ].
  destruct (find (matches where_) (addresses (with_call _ w))) as [row | ] eqn:E;
    intros H; injection H as <- <- <-; simpl in *.
  - exists row. apply find_some in E. destruct E as [Hin _].
    repeat split; auto.
  - eexists. split; [reflexivity | ].
    repeat split; auto; intros; apply in_or_app; simpl; auto.
Qed.

(** C4: a resolved [createMember] has found or created the residential
    and then the postal address, built the record from their ids with
    [verified] false and the next token of the generator as
    [verificationHash], saved it as a new member row, logged the sign-up
    and returned the plain attributes of the saved row. *)
Theorem createMember_success
    (newMember : MemberService.member_details) (w w' : world) (v : value) :
  MemberService.createMember newMember w = (Resolved v, w') ->
  exists residential postal created1 created2 w1 w2 record saved,
    Address_findOrCreate (MemberService.residentialAddress newMember)
                         (MemberService.residentialAddress newMember) w
    = (Resolved (VInst residential, created1), w1)
    /\ Address_findOrCreate (MemberService.postalAddress newMember)
                            (MemberService.postalAddress newMember) w1
       = (Resolved (VInst postal, created2), w2)
    /\ record
       = [("firstName", MemberService.firstName newMember);
          ("lastName", MemberService.lastName newMember);
          ("email", MemberService.email newMember);
          ("gender", MemberService.gender newMember);
          ("dateOfBirth",
           VDate (MemberService.dateOfBirth newMember) "DD/MM/YYYY");
          ("primaryPhoneNumber", MemberService.primaryPhoneNumber newMember);
          ("secondaryPhoneNumber",
           MemberService.secondaryPhoneNumber newMember);
          ("residentialAddressId", get "id" residential);
          ("postalAddressId", get "id" postal);
          ("membershipType", MemberService.membershipType newMember);
          ("verified", VBool false);
          ("verificationHash", VStr (uuids w (uuids_drawn w)))]
    /\ calls w'
       = calls w
         ++ [AddressFindOrCreate (MemberService.residentialAddress newMember)
                                 (MemberService.residentialAddress newMember);
             AddressFindOrCreate (MemberService.postalAddress newMember)
                                 (MemberService.postalAddress newMember);
             MemberCreate record]
    /\ saved = set "id" (VNum (next_member_id w)) record
    /\ members w' = members w ++ [saved]
    /\ get "verified" saved = VBool false
    /\ get "verificationHash" saved = VStr (uuids w (uuids_drawn w))
    /\ uuids_drawn w' = S (uuids_drawn w)
    /\ In residential (addresses w')
    /\ In postal (addresses w')
    /\ log w' = log w ++ [MemberSignUpEvent (VObj saved)]
    /\ v = VObj saved.
Proof.
  unfold MemberService.createMember, MemberService.getMemberAddresses.
  cbv [then_ tap all2].
  destruct (Address_findOrCreate (MemberService.residentialAddress newMember)
              _ w) as [[[a1 c1] | r1] w1] eqn:E1;
    destruct (Address_findOrCreate (MemberService.postalAddress newMember)
                _ w1) as [[[a2 c2] | r2] w2] eqn:E2;
    simpl; try discriminate.
  destruct (findOrCreate_answer _ _ _ _ _ _ E1)
    as (residential & -> & Hin1 & Hkeep1 & Hcalls1 & Hmem1 & Hnext1 & Hu1
        & Hdrawn1 & Hv1 & Hlog1).
  destruct (findOrCreate_answer _ _ _ _ _ _ E2)
    as (postal & -> & Hin2 & Hkeep2 & Hcalls2 & Hmem2 & Hnext2 & Hu2
        & Hdrawn2 & Hv2 & Hlog2).
  intros H. run_chain_in H.
  destruct (verdicts w2 (length (calls w2))); [discriminate | ].
  injection H as <- <-.
  exists residential, postal, c1, c2, w1, w2.
  eexists. eexists.
  split; [reflexivity | ]. split; [exact E2 | ].
  split; [reflexivity | ].
  cbn -[set].
  rewrite Hcalls2, Hcalls1, Hmem2, Hmem1, Hnext2, Hnext1, Hu2, Hu1,
    Hdrawn2, Hdrawn1, Hlog2, Hlog1, <- !app_assoc.
  repeat split; auto.
Qed.

(** *** Verification *)

(** The lookup of [findForVerification] finds a member whose [verified]
    attribute is truthy: the chain resolves with the projected
    attributes after that single store call. *)
Lemma verify_when_verified (hash : string) (w : world) (row : obj) :
  verdicts w (length (calls w)) = None ->
  find (matches (MemberService.hash_clause hash)) (members w) = Some row ->
  truthy (get "verified" row) = true ->
  MemberService.verify hash w
  = (Resolved (VObj (project MemberService.verification_attributes row)),
     with_log (InfoEvent "[member-verification-event]"
                         (VObj (project MemberService.verification_attributes row)))
       (with_call (MemberFindOne (MemberService.hash_clause hash) MemberService.verification_attributes)
                  w)).
Proof.
  intros Hanswer Hfind Htruthy.
  unfold MemberService.verify, MemberService.findForVerification,
    MemberService.markAsVerified, MemberService.hash_clause in *.
  run_chain. rewrite Hanswer. cbn -[matches]. rewrite Hfind.
  cbn -[matches]. rewrite Htruthy. reflexivity.
Qed.

Lemma find_map_stable {A : Type} (p : A -> bool) (f : A -> A) (l : list A) :
  (forall x, p (f x) = p x) ->
  find p (map f l) = option_map f (find p l).
Proof.
  intros Hstable. induction l as [ | x rest IH]; simpl.
  - reflexivity.
  - rewrite Hstable. destruct (p x); [reflexivity | exact IH].
Qed.

(** Marking a row as verified does not change whether it answers to a
    verification hash. *)
Lemma mark_keeps_hash (hash : string) (id : value) (row : obj) :
  matches (MemberService.hash_clause hash)
    (if value_eqb (get "id" row) id
     then write_columns member_columns [("verified", VBool true)] row
     else row)
  = matches (MemberService.hash_clause hash) row.
Proof.
  destruct (value_eqb (get "id" row) id); [ | reflexivity].
  unfold matches, MemberService.hash_clause. cbn [forallb fst snd].
  now rewrite write_columns_other.
Qed.

(** X10: after a resolved [verify], a second [verify] with the same hash, once
    its lookup is answered, resolves with the same value after that
    lookup alone: no update is issued and no row changes. *)
Lemma verify_second_time (hash : string) (w w1 : world) (v : value) :
  MemberService.verify hash w = (Resolved v, w1) ->
  verdicts w1 (length (calls w1)) = None ->
  MemberService.verify hash w1
  = (Resolved v,
     with_log (InfoEvent "[member-verification-event]" v)
       (with_call (MemberFindOne (MemberService.hash_clause hash)
                                 MemberService.verification_attributes)
                  w1)).
Proof.
  intros Hfirst Hanswer.
  unfold MemberService.verify, MemberService.findForVerification,
    MemberService.markAsVerified in Hfirst.
  run_chain_in Hfirst.
  destruct (verdicts w (length (calls w))); [discriminate | ].
  cbn -[matches write_columns member_columns] in Hfirst.
  destruct (find (matches (MemberService.hash_clause hash)) (members w))
    as [row | ] eqn:Hfind; cbn -[matches write_columns member_columns] in Hfirst;
    [ | discriminate].
  destruct (truthy (get "verified" row)) eqn:Htruthy;
    cbn -[matches write_columns member_columns] in Hfirst.
  - injection Hfirst as Hv Hw. subst v.
    apply (verify_when_verified hash w1 row); auto.
    now subst w1.
  - destruct (verdicts w (length (calls w ++ _))); [discriminate | ].
    cbn -[matches write_columns member_columns] in Hfirst.
    injection Hfirst as Hv Hw. subst v.
    set (marked := write_columns member_columns [("verified", VBool true)] row).
    assert (Hfound : find (matches (MemberService.hash_clause hash))
                          (members w1) = Some marked).
    { subst w1. cbn -[matches write_columns member_columns].
      rewrite find_map_stable by (intros x; apply mark_keeps_hash).
      rewrite Hfind. simpl option_map.
      now rewrite value_eqb_refl. }
    assert (Hverified : get "verified" marked = VBool true).
    { subst marked. cbn. apply get_set_same. }
    rewrite (verify_when_verified hash w1 marked Hanswer Hfound)
      by (rewrite Hverified; reflexivity).
    assert (Hsame : project MemberService.verification_attributes marked
                    = [("id", get "id" row); ("email", get "email" row);
                       ("verified", VBool true)]).
    { unfold project, MemberService.verification_attributes. simpl map.
      rewrite Hverified. subst marked.
      rewrite !write_columns_other by reflexivity. reflexivity. }
    rewrite Hsame. reflexivity.
Qed.

(** C2: when the member found by the hash already has [verified] true,
    [verify] resolves with the current state, [verified] true included;
    the lookup is the only store call it issues, so no update is written
    and no member row changes. *)
Theorem verify_already_verified_is_noop
    (hash : string) (w : world) (row : obj) :
  verdicts w (length (calls w)) = None ->
  find (matches (MemberService.hash_clause hash)) (members w) = Some row ->
  get "verified" row = VBool true ->
  fst (MemberService.verify hash w)
  = Resolved (VObj [("id", get "id" row); ("email", get "email" row);
                    ("verified", VBool true)])
  /\ calls (snd (MemberService.verify hash w))
     = calls w ++ [MemberFindOne (MemberService.hash_clause hash)
                                 MemberService.verification_attributes]
  /\ (forall instance values,
        In (InstanceUpdate instance values)
           (calls (snd (MemberService.verify hash w))) ->
        In (InstanceUpdate instance values) (calls w))
  /\ members (snd (MemberService.verify hash w)) = members w.
Proof.
  intros Hanswer Hfind Hverified.
  rewrite (verify_when_verified hash w row Hanswer Hfind)
    by (rewrite Hverified; reflexivity).
  cbn [fst snd]. unfold project, MemberService.verification_attributes.
  simpl map. rewrite Hverified. cbn.
  repeat split.
  intros instance values Hin. apply in_app_or in Hin.
  destruct Hin as [Hin | [Hin | []]]; [exact Hin | discriminate Hin].
Qed.

(** C6: [verify] is rejected when no member row answers to the hash, and
    whenever it is rejected the caller receives the generic error
    [Account could not be verified]; the cause, the missing match or the
    reason the store gave, goes to the log only. *)
Theorem verify_failure_is_generic (hash : string) (w : world) :
  ((forall row, In row (members w) ->
                matches (MemberService.hash_clause hash) row = false) ->
   fst (MemberService.verify hash w)
   = Rejected (RError "Account could not be verified"))
  /\ (forall r,
        fst (MemberService.verify hash w) = Rejected r ->
        r = RError "Account could not be verified"
        /\ exists cause,
             log (snd (MemberService.verify hash w))
             = log w ++ [ErrorLoggedWith "[member-verification-failed]" cause]
             /\ (cause = RError (String.append "Match not found for hash:" hash)
                 \/ exists n, verdicts w n = Some cause)).
Proof.
  split.
  - intros Hnone. apply no_match_find_none in Hnone.
    unfold MemberService.verify, MemberService.findForVerification.
    run_chain. next_case; [reflexivity | ].
    unfold MemberService.hash_clause in Hnone. rewrite Hnone. reflexivity.
  - unfold MemberService.verify, MemberService.findForVerification,
      MemberService.markAsVerified.
    run_chain.
    repeat next_case; intros seen Hr; try discriminate Hr;
      injection Hr as <-;
      (split; [reflexivity | ]);
      eexists; (split; [reflexivity | ]);
      first [ left; reflexivity | right; eexists; eassumption ].
Qed.

(** *** Listing *)

Lemma transformMember_listed (w : world) (row : obj) :
  MemberService.transformMember (MemberService.found_instance w row)
  = match MemberService.residential_of w row with
    | Some address => Resolved (MemberService.listed_record row address)
    | None =>
        Rejected (RTypeError "Cannot read property 'dataValues' of null")
    end.
Proof.
  unfold MemberService.transformMember, MemberService.found_instance, included,
    MemberService.residential_of.
  cbn -[value_eqb].
  destruct (find _ (addresses w)); reflexivity.
Qed.

Lemma transformMembers_listed (w : world) (rows : list obj) :
  forall result,
    MemberService.transformMembers (map (MemberService.found_instance w) rows)
    = Resolved result ->
    Forall2 (MemberService.listed w) rows result.
Proof.
  unfold MemberService.transformMembers.
  induction rows as [ | row rest IH]; intros result; cbn [map map_throwing].
  - intros H. injection H as <-. constructor.
  - rewrite transformMember_listed.
    destruct (MemberService.residential_of w row) as [address | ] eqn:Haddress;
      cbn [obind]; [ | discriminate].
    destruct (map_throwing MemberService.transformMember _) as [others | ];
      cbn [obind]; [ | discriminate].
    intros H. injection H as <-.
    constructor; [ | now apply IH].
    exists address. split; [exact Haddress | reflexivity].
Qed.

(** C8, as the code has it: a resolved [list] holds one record per
    member row, in order; the record has exactly the attributes [id],
    [firstName], [lastName], [membershipType] and [verified] of the row
    and, under [residentialAddress], a plain object with exactly the
    [postcode], [state] and [country] of the member's residential
    address.  The address stays nested: its attributes are not
    properties of the record itself. *)
Theorem list_records_nest_address (w : world) (result : list value) :
  fst (MemberService.list w) = Resolved result ->
  Forall2 (MemberService.listed w) (members w) result
  /\ forall record, In record result ->
       exists fields address,
         record = VObj fields
         /\ keys fields = ["id"; "firstName"; "lastName"; "membershipType";
                           "verified"; "residentialAddress"]
         /\ get "residentialAddress" fields = VObj address
         /\ keys address = ["postcode"; "state"; "country"].
Proof.
  intros Hlist.
  assert (Hall : Forall2 (MemberService.listed w) (members w) result).
  { unfold MemberService.list, MemberService.handleError, Member_findAll
      in Hlist.
    cbv [catch_ then_ issue sync write_log reject] in Hlist.
    destruct (verdicts w (length (calls w))); [discriminate Hlist | ].
    cbn [fst snd members addresses with_call] in Hlist.
    destruct (MemberService.transformMembers _) as [records | ] eqn:Hrecords;
      [ | discriminate Hlist].
    cbn in Hlist. injection Hlist as <-.
    exact (transformMembers_listed w (members w) records Hrecords). }
  split; [exact Hall | ].
  intros record Hin.
  clear Hlist. induction Hall as [ | row rec rows recs Hone _ IH].
  - destruct Hin.
  - destruct Hin as [<- | Hin]; [ | now apply IH].
    destruct Hone as (address & _ & ->).
    unfold MemberService.listed_record. eexists. eexists.
    split; [reflexivity | ]. repeat split.
Qed.

(** *** More on signing up *)

Lemma find_app_none {A : Type} (p : A -> bool) (l l' : list A) :
  find p l = None -> find p (l ++ l') = find p l'.
Proof.
  induction l as [ | x rest IH]; simpl; [reflexivity | ].
  destruct (p x); [discriminate | exact IH].
Qed.

Lemma find_app_some {A : Type} (p : A -> bool) (l l' : list A) (x : A) :
  find p l = Some x -> find p (l ++ l') = Some x.
Proof.
  induction l as [ | y rest IH]; simpl; [discriminate | ].
  destruct (p y); [trivial | exact IH].
Qed.

(** What a resolved [createMember] leaves behind, as far as the later
    calls of the service can tell. *)
Lemma createMember_resolved
    (newMember : MemberService.member_details) (w w' : world) (v : value) :
  MemberService.createMember newMember w = (Resolved v, w') ->
  exists saved,
    v = VObj saved
    /\ members w' = members w ++ [saved]
    /\ get "id" saved = VNum (next_member_id w)
    /\ get "email" saved = MemberService.email newMember
    /\ get "verified" saved = VBool false
    /\ get "verificationHash" saved = VStr (uuids w (uuids_drawn w))
    /\ verdicts w' = verdicts w.
Proof.
  unfold MemberService.createMember, MemberService.getMemberAddresses.
  cbv [then_ tap all2].
  destruct (Address_findOrCreate (MemberService.residentialAddress newMember)
              _ w) as [[[a1 c1] | r1] w1] eqn:E1;
    destruct (Address_findOrCreate (MemberService.postalAddress newMember)
                _ w1) as [[[a2 c2] | r2] w2] eqn:E2;
    simpl; try discriminate.
  destruct (findOrCreate_answer _ _ _ _ _ _ E1)
    as (residential & -> & _ & _ & _ & Hmem1 & Hnext1 & Hu1 & Hdrawn1 & Hv1 & _).
  destruct (findOrCreate_answer _ _ _ _ _ _ E2)
    as (postal & -> & _ & _ & _ & Hmem2 & Hnext2 & Hu2 & Hdrawn2 & Hv2 & _).
  intros H. run_chain_in H.
  destruct (verdicts w2 (length (calls w2))); [discriminate | ].
  injection H as <- <-.
  eexists. split; [reflexivity | ].
  cbn. rewrite Hmem2, Hmem1, Hnext2, Hnext1, Hu2, Hu1, Hdrawn2, Hdrawn1,
    Hv2, Hv1.
  repeat split.
Qed.

(** X1: [createMember] resolves exactly when the store carries out the
    three calls it issues: the two address find-or-create calls and the
    creation of the member. *)
Theorem createMember_resolves_iff_store_answers
    (newMember : MemberService.member_details) (w : world) :
  (exists v, fst (MemberService.createMember newMember w) = Resolved v)
  <-> (verdicts w (length (calls w)) = None
       /\ verdicts w (S (length (calls w))) = None
       /\ verdicts w (S (S (length (calls w)))) = None).
Proof.
  unfold MemberService.createMember. run_chain.
  repeat (next_case; rewrite ?length_app; cbn [length];
          rewrite ?Nat.add_1_r);
    (split;
     [ intros [v Hv]; try discriminate Hv; repeat split
     | intros (H1 & H2 & H3); try discriminate; eexists; reflexivity ]).
Qed.

(** X2: a rejected [createMember] has written no member row and no log
    line, and the reason it is rejected with is one the store gave. *)
Theorem createMember_rejected_saves_no_member
    (newMember : MemberService.member_details) (w : world) (r : reason) :
  fst (MemberService.createMember newMember w) = Rejected r ->
  members (snd (MemberService.createMember newMember w)) = members w
  /\ log (snd (MemberService.createMember newMember w)) = log w
  /\ exists n, verdicts w n = Some r.
Proof.
  unfold MemberService.createMember. run_chain.
  repeat next_case; intros Hr; try discriminate Hr;
    injection Hr as <-; repeat split; eexists; eassumption.
Qed.

(** *** More on verification *)

(** Rows after a conditional write agree with the rows before on every
    attribute the written values do not name. *)
Lemma conditional_write_other (k : string) (values : obj)
    (cond : obj -> bool) (rows : list obj) :
  has_key k values = false ->
  map (get k)
      (map (fun row => if cond row
                       then write_columns member_columns values row
                       else row) rows)
  = map (get k) rows.
Proof.
  intros Hk. rewrite map_map. apply map_ext. intros row.
  destruct (cond row); [ | reflexivity].
  now apply write_columns_other.
Qed.

(** The member found by the hash is not verified yet and the store
    answers the lookup and the update: the chain resolves with the
    member marked as verified. *)
Lemma verify_when_unverified (hash : string) (w : world) (row : obj) :
  verdicts w (length (calls w)) = None ->
  verdicts w (S (length (calls w))) = None ->
  find (matches (MemberService.hash_clause hash)) (members w) = Some row ->
  truthy (get "verified" row) = false ->
  let marked := VObj [("id", get "id" row); ("email", get "email" row);
                      ("verified", VBool true)] in
  fst (MemberService.verify hash w) = Resolved marked
  /\ calls (snd (MemberService.verify hash w))
     = calls w
       ++ [MemberFindOne (MemberService.hash_clause hash)
                         MemberService.verification_attributes;
           InstanceUpdate
             (VInst (project MemberService.verification_attributes row))
             [("verified", VBool true)]]
  /\ members (snd (MemberService.verify hash w))
     = map (fun r => if value_eqb (get "id" r) (get "id" row)
                     then set "verified" (VBool true) r else r)
           (members w)
  /\ log (snd (MemberService.verify hash w))
     = log w ++ [InfoEvent "[member-verification-event]" marked].
Proof.
  intros Hlookup Hupdate Hfind Htruthy.
  unfold MemberService.verify, MemberService.findForVerification,
    MemberService.markAsVerified.
  unfold MemberService.hash_clause in Hfind.
  run_chain. rewrite Hlookup. cbn -[matches]. rewrite Hfind.
  cbn -[matches]. rewrite Htruthy. cbn -[matches].
  rewrite length_app. cbn [length]. rewrite Nat.add_1_r, Hupdate.
  cbn. rewrite <- app_assoc. repeat split.
Qed.

(** X3: the token generated at sign-up verifies the member that signed
    up.  When no earlier member carries the token and the store answers
    the lookup and the update, [verify] with that token resolves with the
    id and the email of the new member and [verified] true. *)
Theorem signup_token_verifies_new_member
    (newMember : MemberService.member_details) (w w' : world) (v : value) :
  MemberService.createMember newMember w = (Resolved v, w') ->
  (forall row, In row (members w) ->
     matches (MemberService.hash_clause (uuids w (uuids_drawn w))) row
     = false) ->
  verdicts w' (length (calls w')) = None ->
  verdicts w' (S (length (calls w'))) = None ->
  fst (MemberService.verify (uuids w (uuids_drawn w)) w')
  = Resolved (VObj [("id", VNum (next_member_id w));
                    ("email", MemberService.email newMember);
                    ("verified", VBool true)])
  /\ exists row,
       find (matches (MemberService.hash_clause (uuids w (uuids_drawn w))))
            (members (snd (MemberService.verify (uuids w (uuids_drawn w)) w')))
       = Some row
       /\ get "id" row = VNum (next_member_id w)
       /\ get "verified" row = VBool true.
Proof.
  intros Hsignup Hfresh Hlookup Hupdate.
  destruct (createMember_resolved _ _ _ _ Hsignup)
    as (saved & _ & Hrows & Hid & Hemail & Hflag & Hhash & _).
  set (token := uuids w (uuids_drawn w)) in *.
  assert (Hfound : find (matches (MemberService.hash_clause token))
                        (members w') = Some saved).
  { rewrite Hrows, find_app_none by now apply no_match_find_none.
    unfold matches, MemberService.hash_clause. cbn [find forallb fst snd].
    now rewrite Hhash, value_eqb_refl. }
  assert (Htruthy : truthy (get "verified" saved) = false)
    by now rewrite Hflag.
  destruct (verify_when_unverified token w' saved Hlookup Hupdate Hfound
              Htruthy) as (Hvalue & _ & Hmarked & _).
  split.
  - rewrite Hvalue, Hid, Hemail. reflexivity.
  - exists (set "verified" (VBool true) saved).
    rewrite Hmarked. split; [ | split].
    + rewrite find_map_stable.
      * rewrite Hfound. cbn [option_map]. now rewrite value_eqb_refl.
      * intros x. destruct (value_eqb (get "id" x) (get "id" saved));
          [ | reflexivity].
        unfold matches, MemberService.hash_clause. cbn [forallb fst snd].
        now rewrite get_set_other by discriminate.
    + now rewrite get_set_other by discriminate.
    + apply get_set_same.
Qed.

(** X9: the first verification of a member.  The member found by the
    hash is not verified and the store answers: [verify] resolves with
    [verified] true, after the lookup and one update of that member, and
    the member the hash finds afterwards is verified. *)
Theorem verify_marks_unverified_member
    (hash : string) (w : world) (row : obj) :
  verdicts w (length (calls w)) = None ->
  verdicts w (S (length (calls w))) = None ->
  find (matches (MemberService.hash_clause hash)) (members w) = Some row ->
  truthy (get "verified" row) = false ->
  fst (MemberService.verify hash w)
  = Resolved (VObj [("id", get "id" row); ("email", get "email" row);
                    ("verified", VBool true)])
  /\ calls (snd (MemberService.verify hash w))
     = calls w
       ++ [MemberFindOne (MemberService.hash_clause hash)
                         MemberService.verification_attributes;
           InstanceUpdate
             (VInst (project MemberService.verification_attributes row))
             [("verified", VBool true)]]
  /\ find (matches (MemberService.hash_clause hash))
          (members (snd (MemberService.verify hash w)))
     = Some (set "verified" (VBool true) row)
  /\ length (members (snd (MemberService.verify hash w)))
     = length (members w).
Proof.
  intros Hlookup Hupdate Hfind Htruthy.
  destruct (verify_when_unverified hash w row Hlookup Hupdate Hfind Htruthy)
    as (Hvalue & Hcalls & Hmarked & _).
  split; [exact Hvalue | ]. split; [exact Hcalls | ].
  rewrite Hmarked. split; [ | apply length_map].
  rewrite find_map_stable.
  - rewrite Hfind. cbn [option_map]. now rewrite value_eqb_refl.
  - intros x. destruct (value_eqb (get "id" x) (get "id" row));
      [ | reflexivity].
    unfold matches, MemberService.hash_clause. cbn [forallb fst snd].
    now rewrite get_set_other by discriminate.
Qed.

(** X11: whatever the hash and the answers of the store, [verify] only
    ever writes the [verified] attribute: every other attribute of every
    member row, the number of member rows and the address table are as
    before. *)
Theorem verify_writes_verified_only (hash k : string) (w : world) :
  k <> "verified" ->
  map (get k) (members (snd (MemberService.verify hash w)))
  = map (get k) (members w)
  /\ length (members (snd (MemberService.verify hash w)))
     = length (members w)
  /\ addresses (snd (MemberService.verify hash w)) = addresses w.
Proof.
  intros Hk.
  assert (Hnot : has_key k [("verified", VBool true)] = false).
  { simpl. rewrite Bool.orb_false_r. now apply String.eqb_neq. }
  unfold MemberService.verify, MemberService.findForVerification,
    MemberService.markAsVerified.
  run_chain.
  repeat next_case; repeat split;
    first [ reflexivity
          | apply length_map
          | now apply conditional_write_other ].
Qed.

(** X12: a resolved [verify] always reports a verified member: its value
    holds the id and the email of the member the hash finds and a
    truthy [verified]. *)
Theorem verify_resolved_reports_verified
    (hash : string) (w : world) (v : value) :
  fst (MemberService.verify hash w) = Resolved v ->
  exists row flag,
    find (matches (MemberService.hash_clause hash)) (members w) = Some row
    /\ v = VObj [("id", get "id" row); ("email", get "email" row);
                 ("verified", flag)]
    /\ truthy flag = true.
Proof.
  unfold MemberService.verify, MemberService.findForVerification,
    MemberService.markAsVerified.
  run_chain.
  repeat next_case; intros Hv; try discriminate Hv; injection Hv as <-;
    eexists; eexists; (split; [reflexivity | ]);
    (split; [reflexivity | ]); first [reflexivity | assumption].
Qed.

(** *** More on updating *)

(** A write leaves an attribute as it is when every value it carries
    for the attribute is the one the row already has. *)
Lemma write_columns_unchanged (columns : list string) (k : string)
    (values : obj) :
  forall row,
    (forall v, In (k, v) values -> v = get k row) ->
    get k (write_columns columns values row) = get k row.
Proof.
  unfold write_columns.
  induction values as [ | [k' v'] rest IH]; intros row Hsame; simpl.
  - reflexivity.
  - assert (Hstep : get k (if existsb (String.eqb k') columns
                           then set k' v' row else row) = get k row).
    { destruct (existsb (String.eqb k') columns); [ | reflexivity].
      destruct (String.eqb k k') eqn:E.
      - apply String.eqb_eq in E. subst k'.
        rewrite get_set_same. apply Hsame. now left.
      - apply get_set_other. intros ->. rewrite String.eqb_refl in E.
        discriminate. }
    rewrite IH; [exact Hstep | ].
    intros v Hv. rewrite Hstep. apply Hsame. now right.
Qed.

Lemma matches_email (e : value) (row : obj) :
  matches [("email", e)] row = true -> get "email" row = e.
Proof.
  unfold matches. cbn [forallb fst snd]. rewrite Bool.andb_true_r.
  apply value_eqb_eq.
Qed.

Lemma find_some_filter {A : Type} (p : A -> bool) (l : list A) (x : A) :
  find p l = Some x -> 1 <= length (filter p l).
Proof.
  induction l as [ | y rest IH]; simpl; [discriminate | ].
  destruct (p y); simpl; [lia | exact IH].
Qed.

Lemma Forall2_map_self {A : Type} (R : A -> A -> Prop) (f : A -> A)
    (l : list A) :
  (forall x, R x (f x)) -> Forall2 R l (map f l).
Proof.
  intros Hall. induction l; simpl; constructor; auto.
Qed.

(** The member rows after [updateMember]: as before, or with the rows
    of the email rewritten from the values of the request. *)
Lemma updateMember_rows (member : MemberService.member_details) (w : world) :
  members (snd (MemberService.updateMember member w)) = members w
  \/ exists rid pid,
       members (snd (MemberService.updateMember member w))
       = map (fun row =>
                if matches [("email", MemberService.email member)] row
                then write_columns member_columns
                       [("firstName", MemberService.firstName member);
                        ("lastName", MemberService.lastName member);
                        ("email", MemberService.email member);
                        ("gender", MemberService.gender member);
                        ("dateOfBirth",
                         VDate (MemberService.dateOfBirth member)
                               "DD/MM/YYYY");
                        ("primaryPhoneNumber",
                         MemberService.primaryPhoneNumber member);
                        ("secondaryPhoneNumber",
                         MemberService.secondaryPhoneNumber member);
                        ("residentialAddress", rid);
                        ("postalAddress", pid);
                        ("membershipType",
                         MemberService.membershipType member)]
                       row
                else row)
             (members w).
Proof.
  unfold MemberService.updateMember. run_chain.
  repeat next_case;
    first [ left; reflexivity | right; eexists; eexists; reflexivity ].
Qed.

(** X6: whatever the request and the answers of the store,
    [updateMember] adds and removes no member row, leaves the [id], the
    [email], the [residentialAddressId] and the [postalAddressId] of
    every row as they were, and does not touch a row with another
    email. *)
Theorem updateMember_keeps_identity_and_addresses
    (member : MemberService.member_details) (w : world) :
  length (members (snd (MemberService.updateMember member w)))
  = length (members w)
  /\ (forall k,
        In k ["id"; "email"; "residentialAddressId"; "postalAddressId"] ->
        map (get k) (members (snd (MemberService.updateMember member w)))
        = map (get k) (members w))
  /\ Forall2
       (fun old new =>
          matches [("email", MemberService.email member)] old = false ->
          new = old)
       (members w) (members (snd (MemberService.updateMember member w))).
Proof.
  destruct (updateMember_rows member w) as [Hsame | (rid & pid & Hrows)].
  - rewrite Hsame. repeat split.
    clear Hsame. induction (members w); constructor; auto.
  - rewrite Hrows. split; [apply length_map | ]. split.
    + intros k Hk. rewrite map_map. apply map_ext. intros row.
      destruct (matches [("email", MemberService.email member)] row) eqn:Hm;
        [ | reflexivity].
      apply write_columns_unchanged. intros v Hv.
      apply matches_email in Hm.
      simpl in Hk, Hv.
      repeat (destruct Hv as [Hv | Hv];
              [ injection Hv as Hkey Hval; subst;
                repeat (destruct Hk as [Hk | Hk]; try discriminate Hk);
                try contradiction; try (symmetry; assumption) | ]).
      contradiction.
    + apply Forall2_map_self. intros row Hm. now rewrite Hm.
Qed.

(** The row an update writes from the values of a request. *)
Lemma rewritten_row (member : MemberService.member_details)
    (rid pid : value) (old : obj) :
  let new :=
    write_columns member_columns
      [("firstName", MemberService.firstName member);
       ("lastName", MemberService.lastName member);
       ("email", MemberService.email member);
       ("gender", MemberService.gender member);
       ("dateOfBirth", VDate (MemberService.dateOfBirth member) "DD/MM/YYYY");
       ("primaryPhoneNumber", MemberService.primaryPhoneNumber member);
       ("secondaryPhoneNumber", MemberService.secondaryPhoneNumber member);
       ("residentialAddress", rid);
       ("postalAddress", pid);
       ("membershipType", MemberService.membershipType member)]
      old in
  get "firstName" new = MemberService.firstName member
  /\ get "lastName" new = MemberService.lastName member
  /\ get "gender" new = MemberService.gender member
  /\ get "dateOfBirth" new
     = VDate (MemberService.dateOfBirth member) "DD/MM/YYYY"
  /\ get "primaryPhoneNumber" new = MemberService.primaryPhoneNumber member
  /\ get "secondaryPhoneNumber" new
     = MemberService.secondaryPhoneNumber member
  /\ get "membershipType" new = MemberService.membershipType member.
Proof.
  cbv -[set get MemberService.firstName MemberService.lastName
        MemberService.email MemberService.gender MemberService.dateOfBirth
        MemberService.primaryPhoneNumber MemberService.secondaryPhoneNumber
        MemberService.membershipType].
  repeat split;
    repeat (rewrite get_set_other by discriminate);
    apply get_set_same.
Qed.

(** X4: an update of a known member.  When a member row has the email
    and the store answers every call, [updateMember] resolves with the
    number of rows of that email, every such row carries the names, the
    gender, the date of birth, the phone numbers and the membership type
    of the request, and the answer of the store is logged. *)
Theorem updateMember_rewrites_known_member
    (member : MemberService.member_details) (w : world) (row : obj) :
  (forall n, verdicts w n = None) ->
  find (matches [("email", MemberService.email member)]) (members w)
  = Some row ->
  let affected :=
    length (filter (matches [("email", MemberService.email member)])
                   (members w)) in
  fst (MemberService.updateMember member w) = Resolved (VArr [VNum affected])
  /\ 1 <= affected
  /\ Forall2
       (fun old new =>
          matches [("email", MemberService.email member)] old = true ->
          get "firstName" new = MemberService.firstName member
          /\ get "lastName" new = MemberService.lastName member
          /\ get "gender" new = MemberService.gender member
          /\ get "dateOfBirth" new
             = VDate (MemberService.dateOfBirth member) "DD/MM/YYYY"
          /\ get "primaryPhoneNumber" new
             = MemberService.primaryPhoneNumber member
          /\ get "secondaryPhoneNumber" new
             = MemberService.secondaryPhoneNumber member
          /\ get "membershipType" new = MemberService.membershipType member)
       (members w) (members (snd (MemberService.updateMember member w)))
  /\ log (snd (MemberService.updateMember member w))
     = log w ++ [MemberSignUpEvent (VArr [VNum affected])].
Proof.
  intros Hall Hfind affected.
  assert (Hcount : 1 <= affected) by exact (find_some_filter _ _ _ Hfind).
  subst affected.
  unfold MemberService.updateMember. run_chain.
  repeat first [ rewrite Hall; cbn -[matches write_columns member_columns]
               | rewrite Hfind; cbn -[matches write_columns member_columns]
               | next_case ];
    (split; [reflexivity | ]); (split; [exact Hcount | ]);
    (split; [ | reflexivity]);
    apply Forall2_map_self; intros old Hold; rewrite Hold;
    apply rewritten_row.
Qed.

(** X5: a rejection of [updateMember] is the error of the service for
    an unknown email or a reason the store gave, unchanged; a rejected
    update has written no member row and no log line. *)
Theorem updateMember_rejection_is_propagated
    (member : MemberService.member_details) (w : world) (r : reason) :
  fst (MemberService.updateMember member w) = Rejected r ->
  (r = RStr "Error: User email does not exist"
   \/ exists n, verdicts w n = Some r)
  /\ members (snd (MemberService.updateMember member w)) = members w
  /\ log (snd (MemberService.updateMember member w)) = log w.
Proof.
  unfold MemberService.updateMember. run_chain.
  repeat next_case; intros Hr; try discriminate Hr; injection Hr as <-;
    (split; [ | split; reflexivity]);
    first [ left; reflexivity | right; eexists; eassumption ].
Qed.

(** *** More on listing *)

(** [list] step by step: the store rejects the query, or a member
    without a residential address makes the transformation throw, or
    the transformed members are the answer. *)
Lemma list_unfolded (w : world) :
  MemberService.list w
  = let w1 := with_call (MemberFindAll MemberService.list_query) w in
    let failed cause :=
      (Rejected (RStr "An error has occurred while fetching members"),
       with_log (ErrorLogged cause) w1) in
    match verdicts w (length (calls w)) with
    | Some r => failed r
    | None =>
        match MemberService.transformMembers
                (map (MemberService.found_instance w) (members w)) with
        | Resolved records => (Resolved records, w1)
        | Rejected e => failed e
        end
    end.
Proof.
  unfold MemberService.list, MemberService.handleError, Member_findAll.
  cbv [catch_ then_ issue sync write_log reject].
  destruct (verdicts w (length (calls w))); [reflexivity | ].
  cbn [fst snd members addresses with_call].
  change (map _ (members w))
    with (map (MemberService.found_instance w) (members w)).
  destruct (MemberService.transformMembers _); reflexivity.
Qed.

Lemma transformMembers_resolves (w : world) (rows : list obj) :
  (exists records,
      MemberService.transformMembers
        (map (MemberService.found_instance w) rows) = Resolved records)
  <-> Forall (fun row => MemberService.residential_of w row <> None) rows.
Proof.
  unfold MemberService.transformMembers.
  induction rows as [ | row rest IH]; cbn [map map_throwing].
  - split; [constructor | eexists; reflexivity].
  - rewrite transformMember_listed.
    destruct (MemberService.residential_of w row) as [address | ] eqn:E;
      cbn [obind].
    + split.
      * intros [records Hrecords].
        constructor; [rewrite E; discriminate | ].
        apply IH.
        destruct (map_throwing MemberService.transformMember _);
          [eexists; reflexivity | discriminate].
      * intros Hall. inversion Hall as [ | ? ? _ Hrest]; subst.
        apply IH in Hrest. destruct Hrest as [records ->].
        eexists. reflexivity.
    + split.
      * intros [records Hrecords]. discriminate.
      * intros Hall. inversion Hall as [ | ? ? Hrow _]; subst.
        contradiction (Hrow E).
Qed.

(** X7: [list] resolves exactly when the store answers the query and
    every member row has a residential address row; one member without
    such a row makes the whole listing fail. *)
Theorem list_resolves_iff_every_member_has_address (w : world) :
  (exists records, fst (MemberService.list w) = Resolved records)
  <-> (verdicts w (length (calls w)) = None
       /\ Forall (fun row => MemberService.residential_of w row <> None)
                 (members w)).
Proof.
  rewrite list_unfolded. cbv zeta.
  destruct (verdicts w (length (calls w))) as [r | ].
  - split; [intros [records H]; discriminate H | intros [H _]; discriminate H].
  - rewrite <- transformMembers_resolves.
    destruct (MemberService.transformMembers _) as [records | e]; cbn [fst].
    + split; [intros _; split; [reflexivity | eexists; reflexivity]
             | intros _; eexists; reflexivity].
    + split; [intros [records H]; discriminate H
             | intros [_ [records H]]; discriminate H].
Qed.

(** X8: [list] only reads.  It issues the one query and leaves both
    tables alone; when it fails the caller gets the fixed message and
    the cause is written to the log, and when it resolves nothing is
    logged. *)
Theorem list_reads_only_and_fails_generically (w : world) :
  calls (snd (MemberService.list w))
  = calls w ++ [MemberFindAll MemberService.list_query]
  /\ members (snd (MemberService.list w)) = members w
  /\ addresses (snd (MemberService.list w)) = addresses w
  /\ (forall r,
        fst (MemberService.list w) = Rejected r ->
        r = RStr "An error has occurred while fetching members"
        /\ exists cause,
             log (snd (MemberService.list w))
             = log w ++ [ErrorLogged cause])
  /\ (forall records,
        fst (MemberService.list w) = Resolved records ->
        log (snd (MemberService.list w)) = log w).
Proof.
  rewrite list_unfolded. cbv zeta.
  destruct (verdicts w (length (calls w))) as [r | ];
    [ | destruct (MemberService.transformMembers _) as [records | e] ];
    cbn [fst snd calls members addresses log with_call with_log];
    (split; [reflexivity | ]); (split; [reflexivity | ]);
    (split; [reflexivity | ]);
    (split;
     [ intros seen H;
       first [ discriminate H
             | injection H as <-; split; [reflexivity | eexists; reflexivity] ]
     | intros records' H; first [discriminate H | reflexivity] ]).
Qed.

End MemberServiceFacts.

(** ** The PayPal notification handler *)

Section PaypalIpnFacts.
Import JS PaypalIpn.
Local Open Scope list_scope.

(** X13: whatever the notification and whatever the provider says about
    it, the handler answers with status 200 and ends the response; a
    failed check reaches [console.error] only, and an authentic
    notification writes nothing there. *)
Theorem handleIpn_always_answers_200 (b : body) (w : world) :
  responded (handleIpn b w) = responded w ++ [Status 200; End_]
  /\ console_errors (handleIpn b w)
     = match verification w b with
       | Some e => console_errors w ++ [e]
       | None => console_errors w
       end.
Proof.
  unfold handleIpn, callback.
  destruct (verification w b) as [e | ];
    [ | destruct (loosely_equal (field "payment_status" b) "Completed") ];
    cbn; rewrite <- app_assoc; split; reflexivity.
Qed.

(** X14: the charge is recorded exactly for an authentic notification
    whose [payment_status] is [Completed], once, with the [custom] and
    [txn_id] fields of the notification; in every other case no charge
    is recorded. *)
Theorem handleIpn_charges_completed_authentic_only (b : body) (w : world) :
  (verification w b = None /\ field "payment_status" b = Some "Completed" ->
   charges (handleIpn b w)
   = charges w ++ [(field "custom" b, field "txn_id" b)])
  /\ (verification w b <> None \/ field "payment_status" b <> Some "Completed"
      -> charges (handleIpn b w) = charges w).
Proof.
  unfold handleIpn, callback, loosely_equal.
  destruct (verification w b) as [e | ].
  - split; [intros [H _]; discriminate H | reflexivity].
  - destruct (field "payment_status" b) as [status | ].
    + destruct (String.eqb status "Completed") eqn:E.
      * apply String.eqb_eq in E. subst status. split; [reflexivity | ].
        intros [H | H]; contradiction H; reflexivity.
      * apply String.eqb_neq in E. split; [ | reflexivity].
        intros [_ H]. injection H as ->. contradiction E. reflexivity.
    + split; [intros [_ H]; discriminate H | reflexivity].
Qed.

End PaypalIpnFacts.

(** ** The admin dashboard *)

Section AdminDashboardFacts.
Import JS AdminDashboard.
Local Open Scope list_scope.

Lemma strict_eq_eq (a b : value) : strict_eq a b = true -> a = b.
Proof.
  destruct a, b; simpl; try discriminate; intros H; try reflexivity.
  - apply Bool.eqb_prop in H. now subst.
  - apply Nat.eqb_eq in H. now subst.
  - apply String.eqb_eq in H. now subst.
Qed.

(** The id of a group the save overwrote is the id it had. *)
Lemma assigned_id (savedGroup g : obj) :
  NoDup (keys savedGroup) ->
  same_id savedGroup g = true ->
  get "id" (assign g savedGroup) = get "id" g.
Proof.
  intros Hnodup Hsame. rewrite get_assign by exact Hnodup.
  destruct (has_key "id" savedGroup); [ | reflexivity].
  symmetry. now apply strict_eq_eq.
Qed.

Lemma assign_found_ids (savedGroup : obj) (gs : list obj) :
  NoDup (keys savedGroup) ->
  map (get "id") (assign_found savedGroup gs) = map (get "id") gs.
Proof.
  intros Hnodup. induction gs as [ | g rest IH]; simpl; [reflexivity | ].
  destruct (same_id savedGroup g) eqn:E; simpl.
  - now rewrite assigned_id.
  - now rewrite IH.
Qed.

Lemma assign_found_finds (savedGroup : obj) (gs : list obj) (g : obj) :
  NoDup (keys savedGroup) ->
  find (same_id savedGroup) gs = Some g ->
  find (same_id savedGroup) (assign_found savedGroup gs)
  = Some (assign g savedGroup).
Proof.
  intros Hnodup. induction gs as [ | g0 rest IH]; simpl; [discriminate | ].
  destruct (same_id savedGroup g0) eqn:E; simpl.
  - intros H. injection H as <-.
    assert (Hkept : same_id savedGroup (assign g0 savedGroup) = true).
    { unfold same_id. rewrite assigned_id by assumption. exact E. }
    now rewrite Hkept.
  - rewrite E. exact IH.
Qed.

Lemma assign_found_keeps_others (savedGroup : obj) (gs : list obj) (g : obj) :
  In g gs -> same_id savedGroup g = false ->
  In g (assign_found savedGroup gs).
Proof.
  induction gs as [ | g0 rest IH]; simpl; [tauto | ].
  intros [-> | Hin] Hother.
  - rewrite Hother. now left.
  - destruct (same_id savedGroup g0); [now right | right; auto].
Qed.

Lemma assign_found_length (savedGroup : obj) (gs : list obj) :
  length (assign_found savedGroup gs) = length gs.
Proof.
  induction gs as [ | g rest IH]; simpl; [reflexivity | ].
  destruct (same_id savedGroup g); simpl; [reflexivity | now rewrite IH].
Qed.

Lemma NoDup_snoc {A : Type} (l : list A) (x : A) :
  NoDup l -> ~ In x l -> NoDup (l ++ [x]).
Proof.
  induction 1 as [ | y rest Hy _ IH]; simpl; intros Hx.
  - constructor; [tauto | constructor].
  - constructor.
    + rewrite in_app_iff. simpl. intuition congruence.
    + apply IH. tauto.
Qed.

(** X15: a saved group can be found by its id afterwards.  For a saved
    group with a primitive id, the groups of the state after the save
    hold a group with that id that has every property of the saved
    group, whether the id was known before or not. *)
Theorem onSaveGroup_saved_group_is_found (savedGroup : obj) (st : state) :
  strict_eq (get "id" savedGroup) (get "id" savedGroup) = true ->
  NoDup (keys savedGroup) ->
  exists g,
    find (same_id savedGroup) (groups (onSaveGroup_saved savedGroup st))
    = Some g
    /\ forall k, has_key k savedGroup = true -> get k g = get k savedGroup.
Proof.
  intros Hprimitive Hnodup. unfold onSaveGroup_saved.
  destruct (find (same_id savedGroup) (groups st)) as [g0 | ] eqn:Hfind;
    cbn [groups setGroups].
  - exists (assign g0 savedGroup). split.
    + now apply assign_found_finds.
    + intros k Hk. rewrite get_assign by exact Hnodup. now rewrite Hk.
  - exists savedGroup. split; [ | reflexivity].
    rewrite find_app_none by exact Hfind.
    cbn [find]. unfold same_id at 1. now rewrite Hprimitive.
Qed.

(** X16: saving a group keeps the ids of the groups distinct.  A known
    id overwrites that group in place and the number of groups stays; a
    new id adds one group at the end; groups with another id are kept as
    they are. *)
Theorem onSaveGroup_keeps_ids_distinct (savedGroup : obj) (st : state) :
  NoDup (map (get "id") (groups st)) ->
  strict_eq (get "id" savedGroup) (get "id" savedGroup) = true ->
  NoDup (keys savedGroup) ->
  NoDup (map (get "id") (groups (onSaveGroup_saved savedGroup st)))
  /\ length (groups (onSaveGroup_saved savedGroup st))
     = match find (same_id savedGroup) (groups st) with
       | Some _ => length (groups st)
       | None => S (length (groups st))
       end
  /\ forall g, In g (groups st) -> same_id savedGroup g = false ->
               In g (groups (onSaveGroup_saved savedGroup st)).
Proof.
  intros Hdistinct Hprimitive Hnodup. unfold onSaveGroup_saved.
  destruct (find (same_id savedGroup) (groups st)) as [g0 | ] eqn:Hfind;
    cbn [groups setGroups].
  - split; [now rewrite assign_found_ids | ].
    split; [apply assign_found_length | ].
    intros g Hin Hother. now apply assign_found_keeps_others.
  - split; [ | split].
    + rewrite map_app. cbn [map]. apply NoDup_snoc; [exact Hdistinct | ].
      intros Hin. apply in_map_iff in Hin. destruct Hin as (g & Hid & Hin).
      pose proof (find_none _ _ Hfind g Hin) as Hother.
      unfold same_id in Hother. rewrite Hid, Hprimitive in Hother.
      discriminate.
    + rewrite length_app. cbn [length]. lia.
    + intros g Hin _. apply in_or_app. now left.
Qed.

Lemma has_selected_group (groupFilter : value) (element : participant) :
  in_selected_group groupFilter element = true
  <-> exists g, In g (Groups element)
                /\ strict_eq (get "id" g) groupFilter = true.
Proof.
  unfold in_selected_group.
  induction (Groups element) as [ | g rest IH]; simpl.
  - split; [discriminate | intros (g & [] & _)].
  - destruct (strict_eq (get "id" g) groupFilter) eqn:E; simpl.
    + split; [intros _; exists g; auto | reflexivity].
    + rewrite IH. split.
      * intros (g' & Hin & Hg'). exists g'. auto.
      * intros (g' & [<- | Hin] & Hg'); [congruence | exists g'; auto].
Qed.

(** X17: selecting a group shows its participants.  After
    [onSelectGroup] the filtered list holds exactly the participants
    that have a group with the selected id, or every participant when
    the selected id is the empty string; the participants and the groups
    of the state are not changed. *)
Theorem onSelectGroup_shows_participants_of_group
    (groupId : value) (st : state) :
  (forall p,
      In p (filteredParticipantList (onSelectGroup groupId st))
      <-> In p (participants st)
          /\ (groupId = VStr ""
              \/ exists g, In g (Groups p)
                           /\ strict_eq (get "id" g) groupId = true))
  /\ (groupId = VStr "" ->
      filteredParticipantList (onSelectGroup groupId st) = participants st)
  /\ participants (onSelectGroup groupId st) = participants st
  /\ groups (onSelectGroup groupId st) = groups st
  /\ groupFilter (onSelectGroup groupId st) = groupId.
Proof.
  unfold onSelectGroup, filterParticipantList.
  cbn [groupFilter participants setGroupFilter].
  destruct (strict_eq groupId (VStr "")) eqn:E;
    cbn [filteredParticipantList participants groups groupFilter setFiltered
         setGroupFilter].
  - apply strict_eq_eq in E. subst groupId.
    repeat split; auto; tauto.
  - assert (Hnot : groupId <> VStr "").
    { intros ->. discriminate E. }
    repeat split; try (intros; contradiction).
    + apply filter_In in H. tauto.
    + apply filter_In in H. destruct H as [_ H].
      right. now apply has_selected_group.
    + intros [Hin [Hempty | Hgroup]]; [contradiction | ].
      apply filter_In. split; [exact Hin | now apply has_selected_group].
Qed.

End AdminDashboardFacts.

(** ** The properties on the sample data *)

Section Instances.
Import JS Promise Models Examples.
Local Open Scope list_scope.

Lemma publish_rejection_answers_500_witness :
  GroupsController.stream_answers bummer_world
    (length (GroupsController.published bummer_world))
  = Some (RStr "Bummer")
  /\ GroupsController.responded
       (snd (GroupsController.createGroup valid_request bummer_world))
     = [GroupsController.SendStatus 500]
  /\ GroupsController.responded
       (snd (GroupsController.updateGroup valid_request bummer_world))
     = [GroupsController.SendStatus 500]
  /\ GroupsController.responded
       (snd (GroupsController.deleteGroup valid_request bummer_world))
     = [GroupsController.SendStatus 500].
Proof.
  split; [reflexivity | ].
  destruct (publish_rejection_answers_500 valid_request bummer_world
              (RStr "Bummer") eq_refl) as (Hcreate & Hupdate & Hdelete).
  exact (conj (Hcreate eq_refl) (conj (Hupdate eq_refl) Hdelete)).
Defined.

Lemma createGroup_invalid_input_400_witness :
  (GroupsController.isNonEmptyString
     (GroupsController.name nameless_request) = false
   \/ GroupsController.isNonEmptyString
        (GroupsController.description nameless_request) = false)
  /\ GroupsController.responded
       (snd (GroupsController.createGroup nameless_request bummer_world))
     = [GroupsController.SendStatus 400]
  /\ GroupsController.published
       (snd (GroupsController.createGroup nameless_request bummer_world))
     = [].
Proof.
  assert (Hbad : GroupsController.isNonEmptyString
                   (GroupsController.name nameless_request) = false
                 \/ GroupsController.isNonEmptyString
                      (GroupsController.description nameless_request) = false)
    by (left; reflexivity).
  split; [exact Hbad | ].
  destruct (createGroup_invalid_input_400 nameless_request bummer_world Hbad)
    as (_ & Hres & Hpub & _).
  exact (conj Hres Hpub).
Defined.

Lemma verify_already_verified_is_noop_witness :
  verdicts verified_world (length (calls verified_world)) = None
  /\ find (matches (MemberService.hash_clause (token 0)))
          (members verified_world) = Some verified_row
  /\ get "verified" verified_row = VBool true
  /\ fst (MemberService.verify (token 0) verified_world)
     = Resolved (VObj [("id", VNum 1);
                       ("email", VStr "sherlock@holmes.co.uk");
                       ("verified", VBool true)])
  /\ members (snd (MemberService.verify (token 0) verified_world))
     = members verified_world.
Proof.
  split; [reflexivity | ]. split; [reflexivity | ]. split; [reflexivity | ].
  destruct (verify_already_verified_is_noop (token 0) verified_world
              verified_row eq_refl eq_refl eq_refl)
    as (Hvalue & _ & _ & Hrows).
  exact (conj Hvalue Hrows).
Defined.

Lemma createMember_success_witness :
  MemberService.createMember sherlock empty_world
  = (Resolved (VObj sherlock_row), signed_up)
  /\ members signed_up = [sherlock_row]
  /\ get "verified" sherlock_row = VBool false
  /\ get "verificationHash" sherlock_row = VStr (token 0).
Proof.
  assert (Hrun : MemberService.createMember sherlock empty_world
                 = (Resolved (VObj sherlock_row), signed_up))
    by reflexivity.
  split; [exact Hrun | ].
  destruct (createMember_success sherlock empty_world signed_up
              (VObj sherlock_row) Hrun)
    as (residential & postal & c1 & c2 & w1 & w2 & record & saved
        & _ & _ & _ & _ & _ & Hrows & Hflag & Hhash & _ & _ & _ & _ & Hsaved).
  injection Hsaved as <-.
  exact (conj Hrows (conj Hflag Hhash)).
Defined.

Lemma updateMember_unknown_email_rejects_witness :
  (forall row, In row (members signed_up) ->
               matches [("email", MemberService.email moriarty)] row = false)
  /\ fst (MemberService.updateMember moriarty signed_up)
     = Rejected (RStr "Error: User email does not exist").
Proof.
  assert (Hnone : forall row, In row (members signed_up) ->
            matches [("email", MemberService.email moriarty)] row = false).
  { intros row [<- | []]. reflexivity. }
  split; [exact Hnone | ].
  destruct (updateMember_unknown_email_rejects moriarty signed_up Hnone)
    as (r & Hrejected & _ & Hreason).
  rewrite Hrejected. f_equal. apply Hreason. intros n. reflexivity.
Defined.

Lemma verify_failure_is_generic_witness :
  (forall row, In row (members signed_up) ->
               matches (MemberService.hash_clause "no-such-hash") row = false)
  /\ fst (MemberService.verify "no-such-hash" signed_up)
     = Rejected (RError "Account could not be verified")
  /\ exists cause,
       log (snd (MemberService.verify "no-such-hash" signed_up))
       = log signed_up
         ++ [ErrorLoggedWith "[member-verification-failed]" cause].
Proof.
  assert (Hnone : forall row, In row (members signed_up) ->
            matches (MemberService.hash_clause "no-such-hash") row = false).
  { intros row [<- | []]. reflexivity. }
  split; [exact Hnone | ].
  destruct (verify_failure_is_generic "no-such-hash" signed_up)
    as (Hmissing & Hgeneric).
  split; [exact (Hmissing Hnone) | ].
  destruct (Hgeneric _ (Hmissing Hnone)) as (_ & cause & Hlog & _).
  exists cause. exact Hlog.
Defined.

Lemma list_records_nest_address_witness :
  fst (MemberService.list signed_up)
  = Resolved [MemberService.listed_record sherlock_row
                (set "id" (VNum 1) baker_street)]
  /\ Forall2 (MemberService.listed signed_up) (members signed_up)
       [MemberService.listed_record sherlock_row
          (set "id" (VNum 1) baker_street)].
Proof.
  assert (Hrun : fst (MemberService.list signed_up)
                 = Resolved [MemberService.listed_record sherlock_row
                               (set "id" (VNum 1) baker_street)])
    by reflexivity.
  split; [exact Hrun | ].
  exact (proj1 (list_records_nest_address signed_up _ Hrun)).
Defined.

(** Read as merging the address into the record, the listing would put
    [postcode], [state] and [country] among the properties of each
    record.  The one record listed after Sherlock signed up has none of
    them: they sit in the object under [residentialAddress]. *)
Lemma list_address_is_not_flattened :
  exists record,
    fst (MemberService.list signed_up) = Resolved [VObj record]
    /\ keys record = ["id"; "firstName"; "lastName"; "membershipType";
                      "verified"; "residentialAddress"]
    /\ has_key "postcode" record = false
    /\ has_key "state" record = false
    /\ has_key "country" record = false
    /\ get "residentialAddress" record
       = VObj [("postcode", VStr "1234"); ("state", VStr "VIC");
               ("country", VStr "Australia")].
Proof.
  eexists. split; [reflexivity | ]. repeat split.
Qed.

End Instances.

(** ** Further properties on the sample data *)

Section MoreInstances.
Import JS Promise Models Examples MoreExamples.
Local Open Scope list_scope.

Lemma createMember_rejected_saves_no_member_witness :
  fst (MemberService.createMember sherlock rejecting_world)
  = Rejected (RError "Validation error")
  /\ members (snd (MemberService.createMember sherlock rejecting_world)) = []
  /\ log (snd (MemberService.createMember sherlock rejecting_world)) = [].
Proof.
  assert (Hrejected :
            fst (MemberService.createMember sherlock rejecting_world)
            = Rejected (RError "Validation error")) by reflexivity.
  split; [exact Hrejected | ].
  destruct (createMember_rejected_saves_no_member sherlock rejecting_world
              _ Hrejected) as (Hrows & Hlog & _).
  exact (conj Hrows Hlog).
Defined.

Lemma signup_token_verifies_new_member_witness :
  MemberService.createMember sherlock empty_world
  = (Resolved (VObj sherlock_row), signed_up)
  /\ (forall row, In row (members empty_world) ->
        matches (MemberService.hash_clause (token 0)) row = false)
  /\ verdicts signed_up (length (calls signed_up)) = None
  /\ verdicts signed_up (S (length (calls signed_up))) = None
  /\ fst (MemberService.verify (token 0) signed_up)
     = Resolved (VObj [("id", VNum 1);
                       ("email", VStr "sherlock@holmes.co.uk");
                       ("verified", VBool true)]).
Proof.
  assert (Hsignup : MemberService.createMember sherlock empty_world
                    = (Resolved (VObj sherlock_row), signed_up))
    by reflexivity.
  assert (Hfresh : forall row, In row (members empty_world) ->
            matches (MemberService.hash_clause (token 0)) row = false)
    by (intros row []).
  split; [exact Hsignup | ]. split; [exact Hfresh | ].
  split; [reflexivity | ]. split; [reflexivity | ].
  exact (proj1 (signup_token_verifies_new_member sherlock empty_world
                  signed_up (VObj sherlock_row) Hsignup Hfresh
                  eq_refl eq_refl)).
Defined.

Lemma updateMember_rewrites_known_member_witness :
  (forall n, verdicts signed_up n = None)
  /\ find (matches [("email", MemberService.email sherlock_moved)])
          (members signed_up) = Some sherlock_row
  /\ fst (MemberService.updateMember sherlock_moved signed_up)
     = Resolved (VArr [VNum 1])
  /\ log (snd (MemberService.updateMember sherlock_moved signed_up))
     = log signed_up ++ [MemberSignUpEvent (VArr [VNum 1])].
Proof.
  assert (Hall : forall n, verdicts signed_up n = None)
    by (intros n; reflexivity).
  split; [exact Hall | ]. split; [reflexivity | ].
  destruct (updateMember_rewrites_known_member sherlock_moved signed_up
              sherlock_row Hall eq_refl) as (Hvalue & _ & _ & Hlog).
  exact (conj Hvalue Hlog).
Defined.

Lemma updateMember_rejection_is_propagated_witness :
  fst (MemberService.updateMember moriarty signed_up)
  = Rejected (RStr "Error: User email does not exist")
  /\ members (snd (MemberService.updateMember moriarty signed_up))
     = members signed_up
  /\ log (snd (MemberService.updateMember moriarty signed_up))
     = log signed_up.
Proof.
  assert (Hrejected : fst (MemberService.updateMember moriarty signed_up)
                      = Rejected (RStr "Error: User email does not exist"))
    by reflexivity.
  split; [exact Hrejected | ].
  exact (proj2 (updateMember_rejection_is_propagated moriarty signed_up _
                  Hrejected)).
Defined.

Lemma verify_marks_unverified_member_witness :
  verdicts signed_up (length (calls signed_up)) = None
  /\ verdicts signed_up (S (length (calls signed_up))) = None
  /\ find (matches (MemberService.hash_clause (token 0))) (members signed_up)
     = Some sherlock_row
  /\ truthy (get "verified" sherlock_row) = false
  /\ fst (MemberService.verify (token 0) signed_up)
     = Resolved (VObj [("id", VNum 1);
                       ("email", VStr "sherlock@holmes.co.uk");
                       ("verified", VBool true)])
  /\ find (matches (MemberService.hash_clause (token 0)))
          (members (snd (MemberService.verify (token 0) signed_up)))
     = Some verified_row.
Proof.
  split; [reflexivity | ]. split; [reflexivity | ].
  split; [reflexivity | ]. split; [reflexivity | ].
  destruct (verify_marks_unverified_member (token 0) signed_up sherlock_row
              eq_refl eq_refl eq_refl eq_refl)
    as (Hvalue & _ & Hfound & _).
  exact (conj Hvalue Hfound).
Defined.

Lemma verify_second_time_witness :
  MemberService.verify (token 0) signed_up
  = (Resolved (VObj [("id", VNum 1);
                     ("email", VStr "sherlock@holmes.co.uk");
                     ("verified", VBool true)]), verified_world)
  /\ verdicts verified_world (length (calls verified_world)) = None
  /\ fst (MemberService.verify (token 0) verified_world)
     = Resolved (VObj [("id", VNum 1);
                       ("email", VStr "sherlock@holmes.co.uk");
                       ("verified", VBool true)])
  /\ members (snd (MemberService.verify (token 0) verified_world))
     = members verified_world.
Proof.
  assert (Hfirst : MemberService.verify (token 0) signed_up
                   = (Resolved (VObj [("id", VNum 1);
                                      ("email", VStr "sherlock@holmes.co.uk");
                                      ("verified", VBool true)]),
                      verified_world)) by reflexivity.
  split; [exact Hfirst | ]. split; [reflexivity | ].
  rewrite (verify_second_time (token 0) signed_up verified_world _ Hfirst
             eq_refl).
  split; reflexivity.
Defined.

Lemma verify_writes_verified_only_witness :
  "email" <> "verified"
  /\ map (get "email")
         (members (snd (MemberService.verify (token 0) signed_up)))
     = [VStr "sherlock@holmes.co.uk"].
Proof.
  assert (Hk : "email" <> "verified") by discriminate.
  split; [exact Hk | ].
  exact (proj1 (verify_writes_verified_only (token 0) "email" signed_up Hk)).
Defined.

Lemma verify_resolved_reports_verified_witness :
  fst (MemberService.verify (token 0) signed_up)
  = Resolved (VObj [("id", VNum 1);
                    ("email", VStr "sherlock@holmes.co.uk");
                    ("verified", VBool true)])
  /\ exists row flag,
       find (matches (MemberService.hash_clause (token 0)))
            (members signed_up) = Some row
       /\ VObj [("id", VNum 1); ("email", VStr "sherlock@holmes.co.uk");
                ("verified", VBool true)]
          = VObj [("id", get "id" row); ("email", get "email" row);
                  ("verified", flag)]
       /\ truthy flag = true.
Proof.
  assert (Hvalue : fst (MemberService.verify (token 0) signed_up)
                   = Resolved (VObj [("id", VNum 1);
                                     ("email", VStr "sherlock@holmes.co.uk");
                                     ("verified", VBool true)]))
    by reflexivity.
  split; [exact Hvalue | ].
  exact (verify_resolved_reports_verified (token 0) signed_up _ Hvalue).
Defined.

Lemma list_reads_only_and_fails_generically_witness :
  fst (MemberService.list homeless_world)
  = Rejected (RStr "An error has occurred while fetching members")
  /\ members (snd (MemberService.list homeless_world))
     = members homeless_world
  /\ exists cause,
       log (snd (MemberService.list homeless_world)) = [ErrorLogged cause].
Proof.
  assert (Hrejected :
            fst (MemberService.list homeless_world)
            = Rejected (RStr "An error has occurred while fetching members"))
    by reflexivity.
  split; [exact Hrejected | ].
  destruct (list_reads_only_and_fails_generically homeless_world)
    as (_ & Hrows & _ & Hfail & _).
  split; [exact Hrows | ].
  exact (proj2 (Hfail _ Hrejected)).
Defined.

Lemma handleIpn_charges_completed_authentic_only_witness :
  PaypalIpn.charges
    (PaypalIpn.handleIpn completed_notification trusting_provider)
  = [(Some "xyz123 CUSTOMHASH", Some "421462822")]
  /\ PaypalIpn.charges
       (PaypalIpn.handleIpn pending_notification trusting_provider) = []
  /\ PaypalIpn.charges
       (PaypalIpn.handleIpn completed_notification distrusting_provider) = [].
Proof.
  split; [ | split].
  - exact (proj1 (handleIpn_charges_completed_authentic_only
                    completed_notification trusting_provider)
                 (conj eq_refl eq_refl)).
  - apply (proj2 (handleIpn_charges_completed_authentic_only
                    pending_notification trusting_provider)).
    right. discriminate.
  - apply (proj2 (handleIpn_charges_completed_authentic_only
                    completed_notification distrusting_provider)).
    left. discriminate.
Defined.

Lemma onSaveGroup_saved_group_is_found_witness :
  AdminDashboard.strict_eq (get "id" renamed_book_club)
                           (get "id" renamed_book_club) = true
  /\ NoDup (keys renamed_book_club)
  /\ exists g,
       find (AdminDashboard.same_id renamed_book_club)
            (AdminDashboard.groups
               (AdminDashboard.onSaveGroup_saved renamed_book_club dashboard))
       = Some g
       /\ get "name" g = VStr "Reading Circle".
Proof.
  assert (Hnodup : NoDup (keys renamed_book_club)).
  { repeat constructor; simpl; intuition discriminate. }
  split; [reflexivity | ]. split; [exact Hnodup | ].
  destruct (onSaveGroup_saved_group_is_found renamed_book_club dashboard
              eq_refl Hnodup) as (g & Hfound & Hprops).
  exists g. split; [exact Hfound | ].
  exact (Hprops "name" eq_refl).
Defined.

Lemma onSaveGroup_keeps_ids_distinct_witness :
  NoDup (map (get "id") (AdminDashboard.groups dashboard))
  /\ AdminDashboard.strict_eq (get "id" hiking_club) (get "id" hiking_club)
     = true
  /\ NoDup (keys hiking_club)
  /\ NoDup (map (get "id")
               (AdminDashboard.groups
                  (AdminDashboard.onSaveGroup_saved hiking_club dashboard)))
  /\ length (AdminDashboard.groups
               (AdminDashboard.onSaveGroup_saved hiking_club dashboard)) = 3.
Proof.
  assert (Hdistinct : NoDup (map (get "id") (AdminDashboard.groups dashboard))).
  { repeat constructor; simpl; intuition discriminate. }
  assert (Hnodup : NoDup (keys hiking_club)).
  { repeat constructor; simpl; intuition discriminate. }
  split; [exact Hdistinct | ]. split; [reflexivity | ].
  split; [exact Hnodup | ].
  destruct (onSaveGroup_keeps_ids_distinct hiking_club dashboard Hdistinct
              eq_refl Hnodup) as (Hkept & Hlength & _).
  exact (conj Hkept Hlength).
Defined.

Lemma onSelectGroup_shows_participants_of_group_witness :
  (In grace (AdminDashboard.filteredParticipantList
               (AdminDashboard.onSelectGroup (VStr "g2") dashboard))
   /\ ~ In alan (AdminDashboard.filteredParticipantList
                   (AdminDashboard.onSelectGroup (VStr "g2") dashboard)))
  /\ AdminDashboard.filteredParticipantList
       (AdminDashboard.onSelectGroup (VStr "")
          (AdminDashboard.onSelectGroup (VStr "g2") dashboard))
     = [ada; grace; alan].
Proof.
  split; [split | ].
  - apply (proj1 (onSelectGroup_shows_participants_of_group (VStr "g2")
                    dashboard)).
    split; [simpl; tauto | ].
    right. exists chess_club. split; [simpl; tauto | reflexivity].
  - intros Hin.
    apply (proj1 (onSelectGroup_shows_participants_of_group (VStr "g2")
                    dashboard)) in Hin.
    destruct Hin as [_ [Hempty | (g & [] & _)]]. discriminate Hempty.
  - exact (proj1 (proj2 (onSelectGroup_shows_participants_of_group (VStr "")
                    (AdminDashboard.onSelectGroup (VStr "g2") dashboard)))
                 eq_refl).
Defined.

End MoreInstances.
